(** * tilewallpaper: a shallow embedding of [src/tilewallpaper.py]

    The program repeats a square tile over a grid, at an "effective" tile
    size chosen so that the grid just covers a target resolution, and crops
    the grid to the target.  This file embeds its functions in Rocq and
    states the properties of the specification about them.

    Conventions.  Python integers are [Z].  Python strings are [string]
    (code points below 256).  A Python function that may raise returns a
    [result]: [Ok v] for a returned value, [Raise e] for the exception. *)

From Stdlib Require Import ZArith Lia Bool List String Ascii.
From Stdlib Require Decimal DecimalString DecimalPos DecimalZ.
From Stdlib Require Import SpecFloat.
Import ListNotations.

Local Open Scope Z_scope.

(** ** Exceptions and results *)

(** The texts of the exceptions the program raises, one constructor per
    [raise] statement of the source, and the one of [int] on a string that
    is not a literal. *)
Inductive message : Type :=
| TilesShape        (* "Tiles must look like 2x4 or 2*4" *)
| TilesIntegers     (* "Tiles must be integers, like 2x4" *)
| TilesPositive     (* "Tiles must be positive integers" *)
| SizeShape         (* "Size must look like 3840x2160" *)
| SizeIntegers      (* "Size must be integers, like 3840x2160" *)
| SizePositive      (* "Size must be positive integers" *)
| ImageTooSmall (w h target_w target_h : Z)
                    (* "Internal error: image too small to crop. ..." *)
| UnknownAnchor (anchor : string)
                    (* "Unknown anchor: ..." *)
| TileNotSquare (w h : Z)
                    (* "Input tile must be square. Got ..." *)
| InvalidLiteral (s : string).
                    (* "invalid literal for int() with base 10: ..." *)

(** The exception classes that occur: the two the source raises, the two
    that integer division raises, and whatever the image library raises when
    it cannot read or cannot write a file. *)
Inductive exn : Type :=
| ArgumentTypeError (m : message)
| ValueError (m : message)
| ZeroDivisionError
| OverflowError
| ImageOpenError (path : string)
| ImageSaveError (path : string).

Inductive result (A : Type) : Type :=
| Ok (a : A)
| Raise (e : exn).

Arguments Ok {A} a.
Arguments Raise {A} e.

(** The program runs in two monads: [result] for its pure functions, and
    [run] (below) for the functions that call the image library. *)
Class Monad (M : Type -> Type) : Type := {
  ret : forall {A : Type}, A -> M A;
  bind : forall {A B : Type}, M A -> (A -> M B) -> M B
}.

Notation "x <- m ;; k" := (bind m (fun x => k))
  (at level 61, m at next level, right associativity).
Notation "' pat <- m ;; k" := (bind m (fun x => match x with pat => k end))
  (at level 61, pat pattern, m at next level, right associativity).
Notation "m ;;; k" := (bind m (fun _ => k))
  (at level 61, right associativity).

Definition result_bind {A B : Type} (r : result A) (k : A -> result B)
  : result B :=
  match r with
  | Ok a => k a
  | Raise e => Raise e
  end.

#[export] Instance result_monad : Monad result :=
  {| ret := @Ok; bind := @result_bind |}.

(** The error taxonomy of the specification (its section 7), and the exception
    each kind stands for. *)
Inductive error_kind : Type :=
| InvalidFormat
| InvalidValue
| DecodeError
| InternalSizeError
| EncodeError.

Definition kind_of (e : exn) : option error_kind :=
  match e with
  | ArgumentTypeError (TilesShape | TilesIntegers | SizeShape | SizeIntegers) =>
      Some InvalidFormat
  | ArgumentTypeError (TilesPositive | SizePositive) => Some InvalidValue
  | ValueError (ImageTooSmall _ _ _ _) => Some InternalSizeError
  | ValueError (UnknownAnchor _) => Some InvalidValue
  | ValueError (TileNotSquare _ _) => Some InvalidValue
  | ImageOpenError _ => Some DecodeError
  | ImageSaveError _ => Some EncodeError
  | _ => None
  end.

Definition fails_with {A : Type} (r : result A) (k : error_kind) : Prop :=
  exists e, r = Raise e /\ kind_of e = Some k.

(** ** Python numbers: [int / int], [max], [math.ceil] *)

Module PyFloat.

(** A finite double [mant * 2 ^ expo].  [int / int] produces no infinity and
    no NaN (it raises instead), and the sign of a zero is not observable
    through [max] and [math.ceil], so a signed mantissa is enough. *)
Record float : Type := mkfloat { mant : Z; expo : Z }.

Definition prec : Z := 53.
Definition emin : Z := -1074.
Definition emax : Z := 1024.

(** [a / (b * 2 ^ e)] as a fraction of integers. *)
Definition scaled_num (a e : Z) : Z := a * 2 ^ Z.max 0 (- e).
Definition scaled_den (b e : Z) : Z := b * 2 ^ Z.max 0 e.
Definition floor_scaled (a b e : Z) : Z := scaled_num a e / scaled_den b e.

(** The exponent of the unit in the last place of the quotient [a / b]
    ([0 < a], [0 < b]): the one that leaves 53 significant bits, and
    never below the exponent of the smallest subnormal. *)
Definition quotient_exponent (a b : Z) : Z :=
  let e0 := Z.log2 a - Z.log2 b - (prec - 1) in
  let e1 := if 2 ^ (prec - 1) <=? floor_scaled a b e0 then e0 else e0 - 1 in
  Z.max e1 emin.

(** [num / den] rounded to the nearest integer, ties to even. *)
Definition round_half_even (num den : Z) : Z :=
  let q := num / den in
  let r := num mod den in
  match 2 * r ?= den with
  | Lt => q
  | Gt => q + 1
  | Eq => if Z.even q then q else q + 1
  end.

(** The double nearest to [a / b], for [0 < a] and [0 < b]. *)
Definition nearest_quotient (a b : Z) : float :=
  let e := quotient_exponent a b in
  mkfloat (round_half_even (scaled_num a e) (scaled_den b e)) e.

Definition too_large (f : float) : bool :=
  (0 <=? expo f) && (2 ^ emax <=? Z.abs (mant f) * 2 ^ expo f).

(** Python's true division of integers: the correctly rounded quotient,
    [ZeroDivisionError] on a zero divisor, [OverflowError] when the
    quotient is too large for a double. *)
Definition truediv (a b : Z) : result float :=
  if b =? 0 then Raise ZeroDivisionError
  else if a =? 0 then Ok (mkfloat 0 0)
  else
    let f := nearest_quotient (Z.abs a) (Z.abs b) in
    if too_large f then Raise OverflowError
    else Ok (mkfloat (Z.sgn a * Z.sgn b * mant f) (expo f)).

(** [x < y] on doubles, by bringing both to the smaller exponent. *)
Definition ltb (x y : float) : bool :=
  let e := Z.min (expo x) (expo y) in
  mant x * 2 ^ (expo x - e) <? mant y * 2 ^ (expo y - e).

(** The builtin [max(x, y)]: keeps [x] unless [y] is greater. *)
Definition max (x y : float) : float := if ltb x y then y else x.

(** [math.ceil]: the least integer not below the double. *)
Definition ceil (x : float) : Z :=
  if 0 <=? expo x then mant x * 2 ^ expo x
  else - ((- mant x) / 2 ^ (- expo x)).

End PyFloat.

(** *** A check of the division against the Standard Library

    [SpecFloat] specifies IEEE 754 division.  Its core, applied to the two
    integers as mantissas with exponent 0, gives the correctly rounded
    quotient in the library's own representation; [nearest_quotient] is
    compared with it on a table of samples. *)

Definition ieee_quotient (a b : Z) : spec_float :=
  let '(q, e, l) := SFdiv_core_binary 53 1024 a 0 b 0 in
  binary_round_aux 53 1024 false q e l.

(** The double [f] and the IEEE value [x] are the same number; a quotient
    that is [too_large] corresponds to the infinity. *)
Definition same_double (f : PyFloat.float) (x : spec_float) : bool :=
  match x with
  | S754_zero _ => PyFloat.mant f =? 0
  | S754_finite s m e =>
      negb (PyFloat.too_large f) &&
      let k := Z.min (PyFloat.expo f) e in
      (PyFloat.mant f * 2 ^ (PyFloat.expo f - k)
       =? (if s then Z.neg m else Z.pos m) * 2 ^ (e - k))
  | S754_infinity s => negb s && PyFloat.too_large f
  | S754_nan => false
  end.

Definition division_samples : list (Z * Z) :=
  flat_map (fun a => map (fun b => (a, b))
    [1; 2; 3; 7; 10; 1000; 2 ^ 52 + 1; 2 ^ 53 - 1; 2 ^ 60 + 7; 3 ^ 50])
    [1; 2; 3; 7; 10; 1080; 1920; 2160; 3840; 2 ^ 53 - 1; 2 ^ 53;
     2 ^ 53 + 1; 2 ^ 53 + 2; 2 ^ 53 + 3; 2 ^ 54 + 2; 2 ^ 54 + 5; 2 ^ 54 + 6;
     3 ^ 40; 2 ^ 100 + 1]
  ++ [ (1, 2 ^ 1074); (1, 2 ^ 1075); (1, 2 ^ 1075 + 1); (3, 2 ^ 1075);
       (2 ^ 53 + 1, 3 * 2 ^ 1073); (7, 5 ^ 500);
       (2 ^ 1023, 1); (2 ^ 1024 - 2 ^ 970 - 1, 1); (2 ^ 1024 - 2 ^ 970, 1);
       (2 ^ 1024, 1); (5 ^ 400, 3) ].

(** ** [compute_effective_tile_size]

    Lines 98 to 117:
    [return int(math.ceil(max(target_w / tiles_x, target_h / tiles_y)))].
    The two quotients are evaluated left to right; [int] of the integer that
    [math.ceil] returns is that integer. *)

Definition compute_effective_tile_size
    (target_w target_h tiles_x tiles_y : Z) : result Z :=
  x <- PyFloat.truediv target_w tiles_x ;;
  y <- PyFloat.truediv target_h tiles_y ;;
  Ok (PyFloat.ceil (PyFloat.max x y)).

(** The exact ceiling of [a / b], for comparison with what the code computes. *)
Definition cdiv (a b : Z) : Z := - ((- a) / b).

(** ** The image library

    Pillow is outside the repository.  An image is what the program reads of
    it: its size and its mode.  Every call into the library is recorded, with
    its arguments, in the order the program makes it.  The library's own
    limits on sizes and memory are not modelled: but for opening and saving
    a file, its calls return. *)

Record image : Type := mkimage { size : Z * Z; mode : string }.

Definition box : Type := (Z * Z * Z * Z)%type.

Inductive call : Type :=
| Open (path : string)
| Convert (img : image) (to : string)
| Resize (img : image) (to : Z * Z) (resample : Z)
| New (md : string) (sz : Z * Z) (color : Z * Z * Z * Z)
| Paste (canvas tile : image) (at_ : Z * Z)
| Crop (img : image) (window : box)
| Save (img : image) (path : string) (dpi : Z * Z).

(** What is outside the program: the images behind the paths it may open,
    and whether the library manages to write a given image to a given path. *)
Record files : Type := mkfiles {
  decode : string -> option image;
  writable : image -> string -> bool
}.

(** A run threads the list of the calls made so far (latest last); an
    exception leaves the calls made before it in place. *)
Definition run (A : Type) : Type := list call -> result A * list call.

Definition run_bind {A B : Type} (m : run A) (k : A -> run B) : run B :=
  fun log =>
    match m log with
    | (Ok a, log') => k a log'
    | (Raise e, log') => (Raise e, log')
    end.

#[export] Instance run_monad : Monad run :=
  {| ret := fun A a log => (Ok a, log); bind := @run_bind |}.

Definition raise {A : Type} (e : exn) : run A := fun log => (Raise e, log).

Definition lift {A : Type} (r : result A) : run A := fun log => (r, log).

Definition record (c : call) : run unit := fun log => (Ok tt, log ++ [c]).

(** A [for] loop over a list. *)
Fixpoint for_each {A : Type} (l : list A) (body : A -> run unit) : run unit :=
  match l with
  | [] => ret tt
  | a :: l' => body a ;;; for_each l' body
  end.

(** [range(n)]. *)
Definition range (n : Z) : list Z := map Z.of_nat (seq 0 (Z.to_nat n)).

Module PIL.

Definition LANCZOS : Z := 1.

Definition open (fs : files) (path : string) : run image :=
  record (Open path) ;;;
  match decode fs path with
  | Some img => ret img
  | None => raise (ImageOpenError path)
  end.

Definition convert (img : image) (to : string) : run image :=
  record (Convert img to) ;;;
  ret (mkimage (size img) to).

Definition resize (img : image) (to : Z * Z) (resample : Z) : run image :=
  record (Resize img to resample) ;;;
  ret (mkimage to (mode img)).

Definition new (md : string) (sz : Z * Z) (color : Z * Z * Z * Z) : run image :=
  record (New md sz color) ;;;
  ret (mkimage sz md).

(** [canvas.paste(tile, at)] changes pixels of [canvas], not its size or mode. *)
Definition paste (canvas tile : image) (at_ : Z * Z) : run unit :=
  record (Paste canvas tile at_).

Definition cropped (img : image) (window : box) : image :=
  let '(left_, top, right_, bottom) := window in
  mkimage (right_ - left_, bottom - top) (mode img).

Definition crop (img : image) (window : box) : run image :=
  record (Crop img window) ;;;
  ret (cropped img window).

Definition save (fs : files) (img : image) (path : string) (dpi : Z * Z)
  : run unit :=
  record (Save img path dpi) ;;;
  if writable fs img path then ret tt else raise (ImageSaveError path).

(** The modes that carry an alpha channel. *)
Definition has_alpha (md : string) : bool :=
  existsb (String.eqb md) ["RGBA"; "LA"; "PA"; "RGBa"; "La"]%string.

End PIL.

(** ** Python strings *)

Module PyStr.

Local Open Scope string_scope.

Definition code (c : ascii) : N := N_of_ascii c.

(** [str.lower] on one code point below 256: the letters [A-Z] and the
    upper-case letters of Latin-1. *)
Definition lower_char (c : ascii) : ascii :=
  let n := code c in
  if ((65 <=? n) && (n <=? 90))%N
     || ((192 <=? n) && (n <=? 222) && negb (n =? 215))%N
  then ascii_of_N (n + 32) else c.

Fixpoint lower (s : string) : string :=
  match s with
  | EmptyString => EmptyString
  | String c s' => String (lower_char c) (lower s')
  end.

(** [s.rfind(c)]: the index of the last [c] in [s], or [-1]. *)
Fixpoint rfind_from (c : ascii) (s : string) (i : Z) (found : Z) : Z :=
  match s with
  | EmptyString => found
  | String d s' => rfind_from c s' (i + 1) (if Ascii.eqb d c then i else found)
  end.

Definition rfind (c : ascii) (s : string) : Z := rfind_from c s 0 (-1).

(** [s[i:j]], for [0 <= i]. *)
Definition slice (s : string) (i j : Z) : string :=
  substring (Z.to_nat i) (Z.to_nat (j - i)) s.

Definition len (s : string) : Z := Z.of_nat (String.length s).

(** [os.path.splitext] (of [posixpath]): the extension starts at the last
    dot of the last path component, unless that component has only dots
    before it. *)
Fixpoint leading_dots_only (s : string) : bool :=
  match s with
  | EmptyString => true
  | String c s' => Ascii.eqb c "." && leading_dots_only s'
  end.

Definition splitext (p : string) : string * string :=
  let sepIndex := rfind "/" p in
  let dotIndex := rfind "." p in
  if (sepIndex <? dotIndex)%Z
     && negb (leading_dots_only (slice p (sepIndex + 1) dotIndex))
  then (slice p 0 dotIndex, slice p dotIndex (len p))
  else (p, EmptyString).

(** [s.replace(a, b)] for one-character [a] and [b]. *)
Fixpoint replace (a b : ascii) (s : string) : string :=
  match s with
  | EmptyString => EmptyString
  | String c s' => String (if Ascii.eqb c a then b else c) (replace a b s')
  end.

(** [c in s]. *)
Fixpoint contains (c : ascii) (s : string) : bool :=
  match s with
  | EmptyString => false
  | String d s' => Ascii.eqb d c || contains c s'
  end.

(** [s.split(c, 1)] when [c] occurs in [s]: what is before and what is
    after its first occurrence. *)
Fixpoint split_once (c : ascii) (s : string) : string * string :=
  match s with
  | EmptyString => (EmptyString, EmptyString)
  | String d s' =>
      if Ascii.eqb d c then (EmptyString, s')
      else let '(before, after) := split_once c s' in (String d before, after)
  end.

(** The white space of [str.strip()] below 256: tab to carriage return,
    the four separators 28 to 31, space, next line (133) and no-break space
    (160). *)
Definition is_space (c : ascii) : bool :=
  let n := code c in
  (((9 <=? n) && (n <=? 13)) || ((28 <=? n) && (n <=? 32))
   || (n =? 133) || (n =? 160))%N.

(** The white space that [int] skips around a literal: the same, but for
    the four separators 28 to 31. *)
Definition is_int_space (c : ascii) : bool :=
  let n := code c in
  (((9 <=? n) && (n <=? 13)) || (n =? 32) || (n =? 133) || (n =? 160))%N.

Fixpoint lstrip (space : ascii -> bool) (s : string) : string :=
  match s with
  | EmptyString => EmptyString
  | String c s' => if space c then lstrip space s' else s
  end.

Fixpoint rstrip (space : ascii -> bool) (s : string) : string :=
  match s with
  | EmptyString => EmptyString
  | String c s' =>
      match rstrip space s' with
      | EmptyString => if space c then EmptyString else String c EmptyString
      | r => String c r
      end
  end.

(** [s.strip()]. *)
Definition strip (s : string) : string := rstrip is_space (lstrip is_space s).

Definition is_digit (c : ascii) : bool := ((48 <=? code c) && (code c <=? 57))%N.

(** The digits of a decimal literal after its first digit: digits, each
    possibly preceded by one underscore. *)
Fixpoint more_digits (s : string) : option Decimal.uint :=
  match s with
  | EmptyString => Some Decimal.Nil
  | String c s' =>
      if Ascii.eqb c "_" then
        match s' with
        | EmptyString => None
        | String c' s'' => DecimalString.uint_of_char c' (more_digits s'')
        end
      else DecimalString.uint_of_char c (more_digits s')
  end.

(** A decimal literal: at least one digit, no underscore in front. *)
Definition digits (s : string) : option Decimal.uint :=
  match s with
  | EmptyString => None
  | String c s' => DecimalString.uint_of_char c (more_digits s')
  end.

(** [int(s)]: white space, an optional sign, a decimal literal, white
    space.  What is not of that form raises [ValueError].  (The
    interpreter's configurable limit on the number of digits is not
    modelled.) *)
Definition py_int (s : string) : result Z :=
  let t := rstrip is_int_space (lstrip is_int_space s) in
  let signed :=
    match t with
    | String "+" t' => option_map Z.of_uint (digits t')
    | String "-" t' => option_map (fun d => - Z.of_uint d) (digits t')
    | _ => option_map Z.of_uint (digits t)
    end in
  match signed with
  | Some z => Ok z
  | None => Raise (ValueError (InvalidLiteral s))
  end.

(** [str(z)]. *)
Definition str (z : Z) : string := DecimalString.NilZero.string_of_int (Z.to_int z).

(** Every character of [s] satisfies [p]. *)
Fixpoint all (p : ascii -> bool) (s : string) : bool :=
  match s with
  | EmptyString => true
  | String c s' => p c && all p s'
  end.

(** The characters of [str(z)]. *)
Definition is_literal_char (c : ascii) : bool :=
  is_digit c || Ascii.eqb c "-".

End PyStr.

(** [try: body except ValueError: handler]. *)
Definition try_except_ValueError {A : Type} (body handler : result A)
  : result A :=
  match body with
  | Raise (ValueError _) => handler
  | r => r
  end.

(** ** The command-line parsers *)

(** Lines 52 to 67. *)
Definition parse_tiles (s : string) : result (Z * Z) :=
  let s := PyStr.strip (PyStr.replace "*" "x" (PyStr.lower s)) in
  if negb (PyStr.contains "x" s) then Raise (ArgumentTypeError TilesShape)
  else
    let '(a, b) := PyStr.split_once "x" s in
    '(tx, ty) <- try_except_ValueError
                   (tx <- PyStr.py_int a ;; ty <- PyStr.py_int b ;; Ok (tx, ty))
                   (Raise (ArgumentTypeError TilesIntegers)) ;;
    if (tx <=? 0) || (ty <=? 0) then Raise (ArgumentTypeError TilesPositive)
    else Ok (tx, ty).

(** Lines 70 to 85. *)
Definition parse_size (s : string) : result (Z * Z) :=
  let s := PyStr.strip (PyStr.lower s) in
  if negb (PyStr.contains "x" s) then Raise (ArgumentTypeError SizeShape)
  else
    let '(a, b) := PyStr.split_once "x" s in
    '(w, h) <- try_except_ValueError
                 (w <- PyStr.py_int a ;; h <- PyStr.py_int b ;; Ok (w, h))
                 (Raise (ArgumentTypeError SizeIntegers)) ;;
    if (w <=? 0) || (h <=? 0) then Raise (ArgumentTypeError SizePositive)
    else Ok (w, h).

(** A separator of [parse_tiles] occurs in the token: [x], in either case,
    or [*]. *)
Definition has_tiles_separator (s : string) : bool :=
  PyStr.contains "x" s || PyStr.contains "X" s || PyStr.contains "*" s.

(** The separator of [parse_size] occurs in the token: [x], in either case. *)
Definition has_size_separator (s : string) : bool :=
  PyStr.contains "x" s || PyStr.contains "X" s.

(** The two fields [parse_tiles] and [parse_size] split a token into. *)
Definition tiles_fields (s : string) : string * string :=
  PyStr.split_once "x" (PyStr.strip (PyStr.replace "*" "x" (PyStr.lower s))).

Definition size_fields (s : string) : string * string :=
  PyStr.split_once "x" (PyStr.strip (PyStr.lower s)).

(** The characters [int] can accept: its white space, the digits, the two
    signs and the underscore. *)
Definition is_int_char (c : ascii) : bool :=
  PyStr.is_int_space c || PyStr.is_digit c
  || Ascii.eqb c "+" || Ascii.eqb c "-" || Ascii.eqb c "_".

(** The characters of a decimal literal: digits and underscores. *)
Definition digitish (c : ascii) : bool :=
  PyStr.is_digit c || Ascii.eqb c "_".


(** ** The pipeline *)

(** Lines 32 to 49. *)
Record TargetSpec : Type := mkTargetSpec {
  width_px : Z;
  height_px : Z;
  dpi : Z
}.

Definition DPI : Z := 300.


(** Lines 88 to 95. *)
Definition load_tile (fs : files) (path : string) : run image :=
  img <- PIL.open fs path ;;
  if negb ((mode img =? "RGB") || (mode img =? "RGBA"))%string then
    PIL.convert img "RGBA"
  else if (mode img =? "RGB")%string then
    PIL.convert img "RGBA"
  else ret img.

(** Lines 120 to 126. *)
Definition tile_image (tile : image) (tiles_x tiles_y : Z) : run image :=
  let '(tw, th) := size tile in
  canvas <- PIL.new "RGBA" (tw * tiles_x, th * tiles_y) (0, 0, 0, 0) ;;
  for_each (range tiles_y) (fun y =>
    for_each (range tiles_x) (fun x =>
      PIL.paste canvas tile (x * tw, y * th))) ;;;
  ret canvas.

(** Lines 145 to 157, the [if]/[elif] chain of [crop_to_target]: the
    top-left corner of the crop window. *)
Definition crop_offset (w h target_w target_h : Z) (anchor : string)
  : result (Z * Z) :=
  if (anchor =? "center")%string then
    Ok ((w - target_w) / 2, (h - target_h) / 2)
  else if (anchor =? "topleft")%string then Ok (0, 0)
  else if (anchor =? "topright")%string then Ok (w - target_w, 0)
  else if (anchor =? "bottomleft")%string then Ok (0, h - target_h)
  else if (anchor =? "bottomright")%string then Ok (w - target_w, h - target_h)
  else Raise (ValueError (UnknownAnchor anchor)).

(** Lines 129 to 159. *)
Definition crop_to_target (img : image) (target_w target_h : Z)
    (anchor : string) : run image :=
  let '(w, h) := size img in
  if (w <? target_w) || (h <? target_h) then
    raise (ValueError (ImageTooSmall w h target_w target_h))
  else
    '(left_, top) <- lift (crop_offset w h target_w target_h anchor) ;;
    PIL.crop img (left_, top, left_ + target_w, top + target_h).

(** Equality of two pairs of integers. *)
Definition size_eqb (a b : Z * Z) : bool :=
  (fst a =? fst b) && (snd a =? snd b).

(** Lines 162 to 199.  The defaults of [anchor], [resample] and
    [force_square_check] are given by the caller. *)
Definition make_pattern_wallpaper (fs : files)
    (input_path output_path : string) (tiles_x tiles_y : Z)
    (target : TargetSpec) (anchor : string) (resample : Z)
    (force_square_check : bool) : run unit :=
  tile <- load_tile fs input_path ;;
  (if force_square_check && negb (fst (size tile) =? snd (size tile)) then
     raise (ValueError (TileNotSquare (fst (size tile)) (snd (size tile))))
   else ret tt) ;;;
  let target_w := width_px target in
  let target_h := height_px target in
  eff <- lift (compute_effective_tile_size target_w target_h tiles_x tiles_y) ;;
  tile <- (if negb (size_eqb (size tile) (eff, eff)) then
             PIL.resize tile (eff, eff) resample
           else ret tile) ;;
  tiled <- tile_image tile tiles_x tiles_y ;;
  out <- crop_to_target tiled target_w target_h anchor ;;
  let ext := PyStr.lower (snd (PyStr.splitext output_path)) in
  out <- (if ((ext =? ".jpg") || (ext =? ".jpeg"))%string then
            PIL.convert out "RGB"
          else ret out) ;;
  PIL.save fs out output_path (dpi target, dpi target).

(** The five anchors of the command line. *)
Definition anchors : list string :=
  ["center"; "topleft"; "topright"; "bottomleft"; "bottomright"]%string.

(** *** Names for what a run leaves in the list of calls *)

(** The calls of [load_tile] after [Image.open]: one conversion, unless the
    file is in mode RGBA already. *)
Definition load_calls (img : image) : list call :=
  if (mode img =? "RGBA")%string then [] else [Convert img "RGBA"%string].

(** The calls of the two nested loops of [tile_image], row by row. *)
Definition paste_calls (canvas tile : image) (tiles_x tiles_y : Z) : list call :=
  flat_map (fun y =>
    map (fun x => Paste canvas tile (x * fst (size tile), y * snd (size tile)))
        (range tiles_x))
    (range tiles_y).

(** The call of the resizing step: none when the loaded tile [img] (in mode
    RGBA by then) has the effective size already. *)
Definition resize_calls (img : image) (eff resample : Z) : list call :=
  if size_eqb (size img) (eff, eff) then []
  else [Resize (mkimage (size img) "RGBA") (eff, eff) resample].

(** The test on the extension of the output path. *)
Definition is_jpeg (output_path : string) : bool :=
  let ext := PyStr.lower (snd (PyStr.splitext output_path)) in
  ((ext =? ".jpg") || (ext =? ".jpeg"))%string.

(** The images a list of calls gives to [save], with path and resolution. *)
Definition saved (log : list call) : list (image * string * (Z * Z)) :=
  flat_map (fun c => match c with
                     | Save img path d => [(img, path, d)]
                     | _ => []
                     end) log.

(** The resizings a list of calls asks for: image, new size and filter. *)
Definition resizes (log : list call) : list (image * (Z * Z) * Z) :=
  flat_map (fun c => match c with
                     | Resize img to r => [(img, to, r)]
                     | _ => []
                     end) log.

(** A file system for examples: every path holds the same tile, and every
    path can be written. *)
Definition holding (tile : image) : files :=
  mkfiles (fun _ => Some tile) (fun _ _ => true).

(** The calls that build, transform or write an image: resizing, allocating
    and pasting (tiling), cropping, saving. *)
Definition is_work (c : call) : bool :=
  match c with
  | Resize _ _ _ | New _ _ _ | Paste _ _ _ | Crop _ _ | Save _ _ _ => true
  | Open _ | Convert _ _ => false
  end.

(** ** Arithmetic of rounding *)

Lemma cdiv_spec (a b : Z) :
  0 < b -> (cdiv a b - 1) * b < a <= cdiv a b * b.
Proof.
  intros Hb. unfold cdiv.
  pose proof (Z.div_mod (- a) b ltac:(lia)) as Hdm.
  pose proof (Z.mod_pos_bound (- a) b Hb) as Hm.
  nia.
Qed.

Lemma cdiv_unique (m k c : Z) :
  0 < k -> (c - 1) * k < m <= c * k -> cdiv m k = c.
Proof.
  intros Hk [Hlo Hhi].
  pose proof (cdiv_spec m k Hk) as [Hlo' Hhi'].
  assert (cdiv m k < c + 1) by nia.
  assert (c - 1 < cdiv m k) by nia.
  lia.
Qed.

Lemma cdiv_pos (a b : Z) : 0 < a -> 0 < b -> 0 < cdiv a b.
Proof.
  intros Ha Hb. pose proof (cdiv_spec a b Hb). nia.
Qed.

Lemma cdiv_least (a b s : Z) : 0 < b -> a <= s * b -> cdiv a b <= s.
Proof.
  intros Hb Hs. pose proof (cdiv_spec a b Hb). nia.
Qed.

Module PyFloatFacts.
Import PyFloat.

Lemma round_half_even_cases (num den : Z) :
  0 < den ->
  let q := num / den in
  let r := num mod den in
  num = den * q + r /\ 0 <= r < den /\
  (round_half_even num den = q \/ round_half_even num den = q + 1) /\
  (r = 0 -> round_half_even num den = q) /\
  (den < 2 * r -> round_half_even num den = q + 1).
Proof.
  intros Hden q r.
  pose proof (Z.div_mod num den ltac:(lia)) as Hdm.
  pose proof (Z.mod_pos_bound num den Hden) as Hr.
  fold q r in Hdm, Hr.
  unfold round_half_even. fold q r.
  repeat split; try lia.
  - destruct (2 * r ?= den); [destruct (Z.even q)| |]; auto.
  - intros H0. rewrite H0.
    assert (Hc : (2 * 0 ?= den) = Lt) by (apply Z.compare_lt_iff; lia).
    rewrite Hc. reflexivity.
  - intros Hlt. apply Z.compare_gt_iff in Hlt. rewrite Hlt. reflexivity.
Qed.

(** Rounding [a / b] to a multiple of [1 / k] and taking the ceiling gives
    the ceiling of [a / b], when the quotient is exact at that scale or the
    scale is finer than [2 / b]. *)
Lemma ceil_of_rounded (a b k : Z) :
  0 < a -> 0 < b -> 0 < k ->
  (a * k) mod b = 0 \/ b < 2 * k ->
  cdiv (round_half_even (a * k) b) k = cdiv a b.
Proof.
  intros Ha Hb Hk Hfine.
  pose proof (cdiv_spec a b Hb) as [Hlo Hhi].
  destruct (round_half_even_cases (a * k) b Hb) as (Hdm & Hr & Hm & Hex & Hup).
  set (q := (a * k) / b) in *. set (r := (a * k) mod b) in *.
  set (c := cdiv a b) in *.
  apply cdiv_unique; [assumption|].
  assert (Hq1 : q <= c * k) by nia.
  assert (Hq2 : (c - 1) * k <= q) by nia.
  split.
  - destruct (Z.eq_dec q ((c - 1) * k)) as [Heq|Hne]; [|lia].
    assert (Hrk : k <= r) by nia.
    rewrite Hup; [lia|].
    destruct Hfine as [H0|Hlt]; lia.
  - destruct (Z.eq_dec q (c * k)) as [Heq|Hne]; [|lia].
    assert (r = 0) by nia.
    rewrite Hex; lia.
Qed.

Lemma pow2_pos (k : Z) : 0 <= k -> 0 < 2 ^ k.
Proof. intros Hk. apply Z.pow_pos_nonneg; lia. Qed.

Lemma pow2_split (j k : Z) : 0 <= j -> 0 <= k -> 2 ^ (j + k) = 2 ^ j * 2 ^ k.
Proof. intros Hj Hk. apply Z.pow_add_r; assumption. Qed.

Lemma pow2_mono (j k : Z) : 0 <= j <= k -> 2 ^ j <= 2 ^ k.
Proof. intros H. apply Z.pow_le_mono_r; lia. Qed.

(** Up to [2 ^ 53] (and for divisors below [2 ^ 1075]) the unit in the
    last place of [a / b] is fine enough for [ceil_of_rounded], but for the
    quotient [2 ^ 53] itself, which is exact. *)
Lemma quotient_exponent_fine (a b : Z) :
  0 < a <= 2 ^ 53 -> 0 < b < 2 ^ 1075 ->
  let e := quotient_exponent a b in
  (a = 2 ^ 53 /\ b = 1 /\ e = 1) \/
  (e <= 0 /\ ((a * 2 ^ (- e)) mod b = 0 \/ b < 2 * 2 ^ (- e))).
Proof.
  intros [Ha Ha53] [Hb Hb1075] e.
  pose proof (Z.log2_spec a Ha) as [Hla1 Hla2].
  pose proof (Z.log2_spec b Hb) as [Hlb1 Hlb2].
  pose proof (Z.log2_nonneg a) as Hla0.
  pose proof (Z.log2_nonneg b) as Hlb0.
  assert (Hla : Z.log2 a <= 53).
  { rewrite <- (Z.log2_pow2 53) by lia. apply Z.log2_le_mono. assumption. }
  assert (Hlb : Z.log2 b < 1075) by (apply Z.log2_lt_pow2; assumption).
  subst e. unfold quotient_exponent, prec, emin.
  set (la := Z.log2 a) in *. set (lb := Z.log2 b) in *.
  replace (Z.succ la) with (la + 1) in Hla2 by lia.
  replace (Z.succ lb) with (lb + 1) in Hlb2 by lia.
  destruct (Z.eq_dec la 53) as [Hla53 | Hla53].
  - (* [a] is [2 ^ 53] *)
    rewrite Hla53 in *.
    assert (Ha_eq : a = 2 ^ 53) by lia.
    destruct (Z.eq_dec lb 0) as [Hlb_eq | Hlb_ne].
    + left. rewrite Hlb_eq in *.
      assert (b = 1) by (change (2 ^ 0) with 1 in Hlb1;
                         change (2 ^ (0 + 1)) with 2 in Hlb2; lia).
      subst a b. repeat split; vm_compute; reflexivity.
    + right.
      replace (53 - lb - (53 - 1)) with (1 - lb) by lia.
      assert (Hfs : floor_scaled a b (1 - lb) = (2 ^ 52 * 2 ^ lb) / b).
      { unfold floor_scaled, scaled_num, scaled_den.
        rewrite (Z.max_r 0 (- (1 - lb))) by lia.
        rewrite (Z.max_l 0 (1 - lb)) by lia.
        rewrite Ha_eq.
        replace (2 ^ 53 * 2 ^ (- (1 - lb))) with (2 ^ 52 * 2 ^ lb).
        - f_equal. change (2 ^ 0) with 1. lia.
        - replace lb with (1 + (lb - 1)) at 1 by lia.
          rewrite pow2_split by lia.
          replace (- (1 - lb)) with (lb - 1) by lia.
          change (2 ^ 53) with (2 ^ 52 * 2 ^ 1). lia. }
      rewrite Hfs.
      pose proof (pow2_pos lb Hlb0) as Hplb.
      destruct (Z.leb_spec (2 ^ (53 - 1)) (2 ^ 52 * 2 ^ lb / b)) as [Hq | Hq].
      * (* the quotient is exactly [2 ^ 52] at this scale *)
        rewrite Z.max_l by lia.
        split; [lia|]. left.
        assert (Hble : 2 ^ 52 * b <= 2 ^ 52 * 2 ^ lb).
        { pose proof (Z.mul_div_le (2 ^ 52 * 2 ^ lb) b Hb).
          change (2 ^ (53 - 1)) with (2 ^ 52) in Hq. nia. }
        assert (Hb_eq : b = 2 ^ lb) by nia.
        replace (- (1 - lb)) with (lb - 1) by lia.
        rewrite Ha_eq.
        replace (2 ^ 53 * 2 ^ (lb - 1)) with (2 ^ 52 * b).
        -- apply Z.mod_mul. lia.
        -- rewrite Hb_eq at 1.
           replace lb with (1 + (lb - 1)) at 1 by lia.
           rewrite pow2_split by lia.
           change (2 ^ 53) with (2 ^ 52 * 2 ^ 1). lia.
      * rewrite Z.max_l by lia.
        split; [lia|]. right.
        replace (- (1 - lb - 1)) with lb by lia.
        rewrite pow2_split in Hlb2 by lia. change (2 ^ 1) with 2 in Hlb2. lia.
  - (* [a] is below [2 ^ 53] *)
    right.
    set (e0 := la - lb - (53 - 1)).
    set (e1 := if 2 ^ (53 - 1) <=? floor_scaled a b e0 then e0 else e0 - 1).
    assert (He1 : e1 <= e0) by (subst e1; destruct (_ <=? _); lia).
    split; [lia|]. right.
    assert (Hle : lb <= - Z.max e1 (-1074)) by lia.
    pose proof (pow2_mono lb (- Z.max e1 (-1074)) ltac:(lia)).
    rewrite pow2_split in Hlb2 by lia. change (2 ^ 1) with 2 in Hlb2. lia.
Qed.

Lemma ceil_nonpos_expo (m e : Z) :
  e <= 0 -> ceil (mkfloat m e) = cdiv m (2 ^ (- e)).
Proof.
  intros He. unfold ceil, cdiv. simpl.
  destruct (Z.leb_spec 0 e) as [H0 | H0]; [|reflexivity].
  replace e with 0 by lia. simpl. rewrite Z.div_1_r. lia.
Qed.

(** The ceiling of the rounded quotient is the ceiling of the quotient. *)
Lemma ceil_nearest_quotient (a b : Z) :
  0 < a <= 2 ^ 53 -> 0 < b < 2 ^ 1075 ->
  ceil (nearest_quotient a b) = cdiv a b.
Proof.
  intros Ha Hb. unfold nearest_quotient.
  destruct (quotient_exponent_fine a b Ha Hb) as [(-> & -> & He) | (He & Hfine)].
  - vm_compute. reflexivity.
  - set (e := quotient_exponent a b) in *.
    rewrite ceil_nonpos_expo by assumption.
    unfold scaled_num, scaled_den.
    rewrite (Z.max_r 0 (- e)) by lia. rewrite (Z.max_l 0 e) by lia.
    change (2 ^ 0) with 1. rewrite Z.mul_1_r.
    pose proof (pow2_pos (- e) ltac:(lia)).
    apply ceil_of_rounded; lia.
Qed.

(** In that range the division raises nothing. *)
Lemma truediv_in_range (a b : Z) :
  0 < a <= 2 ^ 53 -> 0 < b < 2 ^ 1075 ->
  truediv a b = Ok (nearest_quotient a b).
Proof.
  intros Ha Hb. unfold truediv.
  destruct (Z.eqb_spec b 0) as [?|_]; [lia|].
  destruct (Z.eqb_spec a 0) as [?|_]; [lia|].
  rewrite (Z.abs_eq a), (Z.abs_eq b) by lia.
  rewrite (Z.sgn_pos a), (Z.sgn_pos b) by lia.
  assert (Hsmall : too_large (nearest_quotient a b) = false).
  { unfold too_large, nearest_quotient. cbn [mant expo].
    destruct (quotient_exponent_fine a b Ha Hb) as [(-> & -> & He) | (He & _)].
    - vm_compute. reflexivity.
    - set (e := quotient_exponent a b) in *.
      destruct (Z.leb_spec 0 e) as [H0|H0]; [|reflexivity].
      assert (e = 0) as -> by lia.
      unfold scaled_num, scaled_den. cbn [Z.max Z.opp Z.compare].
      change (2 ^ 0) with 1. rewrite !Z.mul_1_r.
      destruct (round_half_even_cases a b ltac:(lia)) as (Hdm & Hr & Hm & _).
      assert (Hq : 0 <= a / b <= a).
      { split; [apply Z.div_pos; lia|]. apply Z.div_le_upper_bound; nia. }
      apply andb_false_intro2. apply Z.leb_gt.
      assert (2 ^ 53 + 1 < 2 ^ emax) by (vm_compute; reflexivity).
      lia. }
  rewrite Hsmall. f_equal.
  destruct (nearest_quotient a b) as [m e]. cbn [mant expo]. f_equal. lia.
Qed.

(** An integer bounds a double from above exactly when it bounds its
    ceiling; [s] is any scale that clears the exponent. *)
Lemma ceil_le_iff (x : float) (n s : Z) :
  0 <= s -> 0 <= expo x + s ->
  ceil x <= n <-> mant x * 2 ^ (expo x + s) <= n * 2 ^ s.
Proof.
  destruct x as [m e]. cbn [mant expo]. intros Hs Hes.
  pose proof (pow2_pos s Hs) as Hps.
  destruct (Z_le_gt_dec 0 e) as [He | He].
  - unfold ceil. cbn [mant expo].
    destruct (Z.leb_spec 0 e); [|lia].
    rewrite pow2_split by lia.
    pose proof (pow2_pos e He). nia.
  - rewrite ceil_nonpos_expo by lia.
    pose proof (pow2_pos (- e) ltac:(lia)) as Hpe.
    pose proof (pow2_pos (e + s) Hes) as Hpes.
    pose proof (cdiv_spec m (2 ^ (- e)) Hpe) as [Hlo Hhi].
    assert (Hsplit : 2 ^ s = 2 ^ (e + s) * 2 ^ (- e)).
    { rewrite <- pow2_split by lia. f_equal. lia. }
    rewrite Hsplit. set (c := cdiv m (2 ^ (- e))) in *.
    split; intros H; nia.
Qed.

Lemma ceil_mono (x y : float) : ltb y x = false -> ceil x <= ceil y.
Proof.
  unfold ltb. intros Hle. apply Z.ltb_ge in Hle.
  set (e := Z.min (expo y) (expo x)) in *.
  set (s := Z.max 0 (- e)).
  assert (Hs : 0 <= s) by lia.
  apply (ceil_le_iff x (ceil y) s); [lia | lia |].
  pose proof (proj1 (ceil_le_iff y (ceil y) s ltac:(lia) ltac:(lia))
                    (Z.le_refl _)) as Hy.
  replace (expo x + s) with ((expo x - e) + (e + s)) by lia.
  replace (expo y + s) with ((expo y - e) + (e + s)) in Hy by lia.
  rewrite pow2_split in * by lia.
  pose proof (pow2_pos (e + s) ltac:(lia)).
  nia.
Qed.

Lemma ltb_asym (x y : float) : ltb x y = true -> ltb y x = false.
Proof.
  unfold ltb. rewrite (Z.min_comm (expo y) (expo x)).
  intros H. apply Z.ltb_lt in H. apply Z.ltb_ge. lia.
Qed.

(** [math.ceil] commutes with [max]. *)
Lemma ceil_max (x y : float) : ceil (max x y) = Z.max (ceil x) (ceil y).
Proof.
  unfold max. destruct (ltb x y) eqn:Hlt.
  - pose proof (ceil_mono x y (ltb_asym _ _ Hlt)). lia.
  - pose proof (ceil_mono y x Hlt). lia.
Qed.

(** On the samples -- small and huge operands, ties, subnormal and
    overflowing quotients -- the division is the IEEE one. *)
Lemma nearest_quotient_is_ieee_on_samples :
  forallb (fun '(a, b) => same_double (nearest_quotient a b) (ieee_quotient a b))
          division_samples = true.
Proof. vm_compute. reflexivity. Qed.

(** So is the quotient on which the effective size goes wrong: IEEE
    division rounds [(2 ^ 53 + 1) / 1] to [2 ^ 53]. *)
Lemma ieee_quotient_rounds_down :
  ieee_quotient (2 ^ 53 + 1) 1 = S754_finite false (Z.to_pos (2 ^ 52)) 1 /\
  truediv (2 ^ 53 + 1) 1 = Ok (mkfloat (2 ^ 52) 1).
Proof. split; vm_compute; reflexivity. Qed.

End PyFloatFacts.

(** Up to [2 ^ 53] pixels, and for counts below [2 ^ 1075], the effective
    tile size is the exact ceiling the docstring asks for. *)
Lemma compute_effective_tile_size_in_range (target_w target_h tiles_x tiles_y : Z) :
  0 < target_w <= 2 ^ 53 -> 0 < target_h <= 2 ^ 53 ->
  0 < tiles_x < 2 ^ 1075 -> 0 < tiles_y < 2 ^ 1075 ->
  compute_effective_tile_size target_w target_h tiles_x tiles_y =
  Ok (Z.max (cdiv target_w tiles_x) (cdiv target_h tiles_y)).
Proof.
  intros Hw Hh Hx Hy. unfold compute_effective_tile_size.
  rewrite !PyFloatFacts.truediv_in_range by assumption.
  cbn. rewrite PyFloatFacts.ceil_max.
  rewrite !PyFloatFacts.ceil_nearest_quotient by assumption.
  reflexivity.
Qed.

(** In the same range the effective size covers the target and no smaller
    integer does. *)
Lemma effective_size_least_in_range (target_w target_h tiles_x tiles_y : Z) :
  0 < target_w <= 2 ^ 53 -> 0 < target_h <= 2 ^ 53 ->
  0 < tiles_x < 2 ^ 1075 -> 0 < tiles_y < 2 ^ 1075 ->
  exists s,
    compute_effective_tile_size target_w target_h tiles_x tiles_y = Ok s /\
    tiles_x * s >= target_w /\ tiles_y * s >= target_h /\
    forall s', tiles_x * s' >= target_w -> tiles_y * s' >= target_h -> s <= s'.
Proof.
  intros Hw Hh Hx Hy.
  exists (Z.max (cdiv target_w tiles_x) (cdiv target_h tiles_y)).
  split; [apply compute_effective_tile_size_in_range; assumption|].
  pose proof (cdiv_spec target_w tiles_x ltac:(lia)) as [_ Hcw].
  pose proof (cdiv_spec target_h tiles_y ltac:(lia)) as [_ Hch].
  repeat split.
  - nia.
  - nia.
  - intros s' Hsw Hsh.
    pose proof (cdiv_least target_w tiles_x s' ltac:(lia) ltac:(lia)).
    pose proof (cdiv_least target_h tiles_y s' ltac:(lia) ltac:(lia)).
    lia.
Qed.

(** C1.  [compute_effective_tile_size(2**53 + 1, 1, 1, 1)] returns [2 ** 53]:
    one tile of that size does not cover the target width, although width,
    height and counts are positive.  The division [(2**53 + 1) / 1] is
    rounded to the nearest double, [2 ** 53], before the ceiling is taken. *)
Theorem compute_effective_tile_size_misses_cover :
  compute_effective_tile_size (2 ^ 53 + 1) 1 1 1 = Ok (2 ^ 53) /\
  ~ (1 * 2 ^ 53 >= 2 ^ 53 + 1).
Proof.
  split; [vm_compute; reflexivity | lia].
Qed.

(** ** Cropping *)

Lemma crop_offset_anchor (w h target_w target_h : Z) (anchor : string) :
  In anchor anchors ->
  crop_offset w h target_w target_h anchor =
  Ok (if (anchor =? "center")%string then
        ((w - target_w) / 2, (h - target_h) / 2)
      else if (anchor =? "topleft")%string then (0, 0)
      else if (anchor =? "topright")%string then (w - target_w, 0)
      else if (anchor =? "bottomleft")%string then (0, h - target_h)
      else (w - target_w, h - target_h)).
Proof.
  unfold anchors. cbn [In].
  intros [<- | [<- | [<- | [<- | [<- | []]]]]]; reflexivity.
Qed.


(** What [crop_to_target] does on an image that is large enough. *)
Lemma crop_to_target_large_enough (img : image) (w h target_w target_h : Z)
    (anchor : string) (log : list call) :
  size img = (w, h) -> target_w <= w -> target_h <= h ->
  crop_to_target img target_w target_h anchor log =
  match crop_offset w h target_w target_h anchor with
  | Ok (left_, top) =>
      let window := (left_, top, left_ + target_w, top + target_h) in
      (Ok (PIL.cropped img window), log ++ [Crop img window])
  | Raise e => (Raise e, log)
  end.
Proof.
  intros Hsize Hw Hh. unfold crop_to_target. rewrite Hsize.
  destruct (Z.ltb_spec w target_w); [lia|].
  destruct (Z.ltb_spec h target_h); [lia|].
  cbn. unfold run_bind, lift.
  destruct (crop_offset w h target_w target_h anchor) as [[left_ top] | e];
    reflexivity.
Qed.

Lemma crop_to_target_too_small (img : image) (w h target_w target_h : Z)
    (anchor : string) (log : list call) :
  size img = (w, h) -> w < target_w \/ h < target_h ->
  crop_to_target img target_w target_h anchor log =
  (Raise (ValueError (ImageTooSmall w h target_w target_h)), log).
Proof.
  intros Hsize Hsmall. unfold crop_to_target. rewrite Hsize.
  destruct (Z.ltb_spec w target_w); [reflexivity|].
  destruct (Z.ltb_spec h target_h); [reflexivity|]. lia.
Qed.







(** ** The stages of the pipeline *)

Lemma load_tile_decoded (fs : files) (path : string) (img : image)
    (log : list call) :
  decode fs path = Some img ->
  load_tile fs path log =
  (Ok (mkimage (size img) "RGBA"), log ++ Open path :: load_calls img).
Proof.
  intros Hdec. unfold load_tile, PIL.open, load_calls. cbn.
  unfold run_bind, record. rewrite Hdec. cbn.
  destruct img as [sz md]. cbn [mode size].
  destruct (String.eqb_spec md "RGBA") as [-> | Hrgba].
  - reflexivity.
  - rewrite orb_false_r.
    destruct (String.eqb_spec md "RGB") as [-> | Hrgb]; cbn;
      unfold run_bind, record; cbn; rewrite <- app_assoc; reflexivity.
Qed.

Lemma load_tile_undecoded (fs : files) (path : string) (log : list call) :
  decode fs path = None ->
  load_tile fs path log = (Raise (ImageOpenError path), log ++ [Open path]).
Proof.
  intros Hdec. unfold load_tile, PIL.open. cbn.
  unfold run_bind, record. rewrite Hdec. reflexivity.
Qed.

Lemma for_each_record {A : Type} (l : list A) (f : A -> call) (log : list call) :
  for_each l (fun a => record (f a)) log = (Ok tt, log ++ map f l).
Proof.
  revert log. induction l as [| a l IH]; intros log; cbn.
  - rewrite app_nil_r. reflexivity.
  - unfold run_bind, record. rewrite IH, <- app_assoc. reflexivity.
Qed.

Lemma for_each_rows {A B : Type} (rows : list A) (cols : list B)
    (f : A -> B -> call) (log : list call) :
  for_each rows (fun y => for_each cols (fun x => record (f y x))) log =
  (Ok tt, log ++ flat_map (fun y => map (f y) cols) rows).
Proof.
  revert log. induction rows as [| y rows IH]; intros log; cbn.
  - rewrite app_nil_r. reflexivity.
  - unfold run_bind. rewrite for_each_record, IH, <- app_assoc. reflexivity.
Qed.

Lemma tile_image_canvas (tile : image) (tiles_x tiles_y : Z) (log : list call) :
  let canvas :=
    mkimage (fst (size tile) * tiles_x, snd (size tile) * tiles_y) "RGBA" in
  tile_image tile tiles_x tiles_y log =
  (Ok canvas,
   log ++ New "RGBA" (size canvas) (0, 0, 0, 0)
       :: paste_calls canvas tile tiles_x tiles_y).
Proof.
  destruct tile as [[tw th] md]. intros canvas. subst canvas.
  unfold tile_image, PIL.new, PIL.paste, paste_calls. cbn.
  unfold run_bind.
  rewrite (for_each_rows (range tiles_y) (range tiles_x)
             (fun y x => Paste _ _ (x * tw, y * th))).
  rewrite <- app_assoc. reflexivity.
Qed.

(** *** What a list of calls saves *)

Lemma saved_app (l1 l2 : list call) : saved (l1 ++ l2) = saved l1 ++ saved l2.
Proof. unfold saved. apply flat_map_app. Qed.

Lemma saved_load_calls (img : image) : saved (load_calls img) = [].
Proof. unfold load_calls. destruct (mode img =? "RGBA")%string; reflexivity. Qed.

Lemma saved_resize_calls (img : image) (eff resample : Z) :
  saved (resize_calls img eff resample) = [].
Proof.
  unfold resize_calls. destruct (size_eqb (size img) (eff, eff)); reflexivity.
Qed.

Lemma saved_pastes (canvas tile : image) (at_ : Z -> Z * Z) (cols : list Z) :
  saved (map (fun x => Paste canvas tile (at_ x)) cols) = [].
Proof. induction cols as [| x cols IH]; [reflexivity | exact IH]. Qed.

Lemma saved_paste_calls (canvas tile : image) (tiles_x tiles_y : Z) :
  saved (paste_calls canvas tile tiles_x tiles_y) = [].
Proof.
  unfold paste_calls.
  induction (range tiles_y) as [| y rows IH]; [reflexivity|].
  cbn [flat_map]. rewrite saved_app, IH, app_nil_r.
  apply (saved_pastes canvas tile
           (fun x => (x * fst (size tile), y * snd (size tile)))).
Qed.

Lemma saved_In (log : list call) (img : image) (path : string) (d : Z * Z) :
  In (Save img path d) log <-> In (img, path, d) (saved log).
Proof.
  unfold saved. rewrite in_flat_map. split.
  - intros H. exists (Save img path d). split; [assumption | left; reflexivity].
  - intros (c & Hc & Hin). destruct c; cbn in Hin; try contradiction.
    destruct Hin as [Heq | []]. injection Heq as -> -> ->. assumption.
Qed.

Section Pipeline.

Variable fs : files.
Variables input_path output_path : string.
Variables tiles_x tiles_y : Z.
Variable target : TargetSpec.
Variable anchor : string.
Variable resample : Z.
Variable force_square_check : bool.

Let wallpaper : run unit :=
  make_pattern_wallpaper fs input_path output_path tiles_x tiles_y target
    anchor resample force_square_check.

Lemma wallpaper_undecoded (log : list call) :
  decode fs input_path = None ->
  wallpaper log = (Raise (ImageOpenError input_path), log ++ [Open input_path]).
Proof.
  intros Hdec. unfold wallpaper, make_pattern_wallpaper. cbn [bind ret run_monad].
  unfold run_bind at 1. rewrite load_tile_undecoded by assumption.
  reflexivity.
Qed.

Lemma wallpaper_not_square (img : image) (log : list call) :
  decode fs input_path = Some img ->
  force_square_check = true -> fst (size img) <> snd (size img) ->
  wallpaper log =
  (Raise (ValueError (TileNotSquare (fst (size img)) (snd (size img)))),
   log ++ Open input_path :: load_calls img).
Proof.
  intros Hdec -> Hneq. unfold wallpaper, make_pattern_wallpaper. cbn [bind ret run_monad].
  unfold run_bind at 1. rewrite (load_tile_decoded _ _ img) by assumption.
  cbn [size]. destruct (Z.eqb_spec (fst (size img)) (snd (size img)));
    [contradiction|].
  reflexivity.
Qed.

Lemma wallpaper_no_size (img : image) (e : exn) (log : list call) :
  decode fs input_path = Some img ->
  force_square_check = false \/ fst (size img) = snd (size img) ->
  compute_effective_tile_size (width_px target) (height_px target)
    tiles_x tiles_y = Raise e ->
  wallpaper log = (Raise e, log ++ Open input_path :: load_calls img).
Proof.
  intros Hdec Hsq Heff. unfold wallpaper, make_pattern_wallpaper. cbn [bind ret run_monad].
  unfold run_bind at 1. rewrite (load_tile_decoded _ _ img) by assumption.
  cbn [size].
  assert (Hcheck : force_square_check
                   && negb (fst (size img) =? snd (size img)) = false).
  { destruct Hsq as [-> | ->]; [reflexivity|].
    rewrite Z.eqb_refl. apply andb_false_r. }
  rewrite Hcheck. unfold run_bind, lift. rewrite Heff. reflexivity.
Qed.

(** A run that gets its tile and its effective size: it resizes (if need
    be), tiles, crops, converts (for JPEG) and saves. *)
Lemma wallpaper_stages (img : image) (eff : Z) (log : list call) :
  decode fs input_path = Some img ->
  force_square_check = false \/ fst (size img) = snd (size img) ->
  compute_effective_tile_size (width_px target) (height_px target)
    tiles_x tiles_y = Ok eff ->
  let tile := mkimage (eff, eff) "RGBA" in
  let tiled := mkimage (eff * tiles_x, eff * tiles_y) "RGBA" in
  let log3 :=
    log ++ Open input_path :: load_calls img
        ++ resize_calls img eff resample
        ++ New "RGBA" (size tiled) (0, 0, 0, 0)
        :: paste_calls tiled tile tiles_x tiles_y in
  wallpaper log =
  match crop_to_target tiled (width_px target) (height_px target) anchor log3
  with
  | (Raise e, log4) => (Raise e, log4)
  | (Ok out, log4) =>
      let out' := if is_jpeg output_path then mkimage (size out) "RGB"
                  else out in
      (if writable fs out' output_path then Ok tt
       else Raise (ImageSaveError output_path),
       log4 ++ (if is_jpeg output_path then [Convert out "RGB"%string] else [])
            ++ [Save out' output_path (dpi target, dpi target)])
  end.
Proof.
  intros Hdec Hsq Heff tile tiled log3.
  unfold wallpaper, make_pattern_wallpaper. cbn [bind ret run_monad].
  unfold run_bind at 1. rewrite (load_tile_decoded _ _ img) by assumption.
  cbn [size].
  assert (Hcheck : force_square_check
                   && negb (fst (size img) =? snd (size img)) = false).
  { destruct Hsq as [-> | ->]; [reflexivity|].
    rewrite Z.eqb_refl. apply andb_false_r. }
  rewrite Hcheck. unfold run_bind at 1.
  unfold run_bind at 1. unfold lift at 1. rewrite Heff.
  assert (Hresize :
    (if negb (size_eqb (size img) (eff, eff))
     then PIL.resize (mkimage (size img) "RGBA") (eff, eff) resample
     else ret (mkimage (size img) "RGBA"))
      (log ++ Open input_path :: load_calls img) =
    (Ok tile, log ++ Open input_path :: load_calls img
                  ++ resize_calls img eff resample)).
  { unfold resize_calls.
    destruct (size_eqb (size img) (eff, eff)) eqn:Hsz; cbn.
    - rewrite app_nil_r. subst tile. do 2 f_equal.
      unfold size_eqb in Hsz. apply andb_prop in Hsz as [H1 H2].
      apply Z.eqb_eq in H1, H2. cbn in H1, H2.
      destruct (size img). cbn in *. congruence.
    - unfold run_bind, record. cbn. rewrite <- app_assoc. reflexivity. }
  cbn [bind ret run_monad] in Hresize.
  unfold run_bind at 1. rewrite Hresize.
  unfold run_bind at 1. rewrite tile_image_canvas. cbn [size fst snd tile].
  fold tiled.
  replace (log ++ Open input_path :: load_calls img
               ++ resize_calls img eff resample)
    with ((log ++ Open input_path :: load_calls img)
              ++ resize_calls img eff resample) in *.
  2: { rewrite <- app_assoc. reflexivity. }
  replace (((log ++ Open input_path :: load_calls img)
              ++ resize_calls img eff resample)
           ++ New "RGBA" (eff * tiles_x, eff * tiles_y) (0, 0, 0, 0)
              :: paste_calls tiled tile tiles_x tiles_y)
    with log3.
  2: { subst log3. cbn [size tiled]. rewrite <- !app_assoc. reflexivity. }
  unfold run_bind at 1.
  destruct (crop_to_target tiled (width_px target) (height_px target)
              anchor log3) as [[out | e] log4]; [|reflexivity].
  fold (is_jpeg output_path).
  destruct (is_jpeg output_path); cbn; unfold run_bind, record; cbn.
  - rewrite <- app_assoc. destruct (writable fs _ output_path); reflexivity.
  - destruct (writable fs out output_path); reflexivity.
Qed.

(** Every run either saves nothing, or has tiled at an effective size that
    covers the target, cropped the tiling, and given [save] the cropped
    image: converted to RGB for a JPEG path, as it is otherwise. *)
Lemma wallpaper_outcome :
  saved (snd (wallpaper [])) = [] \/
  exists eff left_ top : Z,
    let tiled := mkimage (eff * tiles_x, eff * tiles_y) "RGBA" in
    let window :=
      (left_, top, left_ + width_px target, top + height_px target) in
    let out := PIL.cropped tiled window in
    let out' := if is_jpeg output_path then mkimage (size out) "RGB"
                else out in
    compute_effective_tile_size (width_px target) (height_px target)
      tiles_x tiles_y = Ok eff /\
    In (Crop tiled window) (snd (wallpaper [])) /\
    saved (snd (wallpaper [])) =
      [(out', output_path, (dpi target, dpi target))].
Proof.
  destruct (decode fs input_path) as [img |] eqn:Hdec.
  2: { left. rewrite wallpaper_undecoded by assumption. reflexivity. }
  assert (Hprefix : forall l,
            saved ([] ++ Open input_path :: load_calls img ++ l) = saved l).
  { intros l. cbn. rewrite saved_app, saved_load_calls. reflexivity. }
  destruct (force_square_check
            && negb (fst (size img) =? snd (size img))) eqn:Hcheck.
  { left. apply andb_prop in Hcheck as [Hforce Hneq].
    rewrite (wallpaper_not_square img) by
      (assumption || (apply Z.eqb_neq, negb_true_iff; assumption)).
    cbn [snd]. rewrite <- (app_nil_r (load_calls img)). apply Hprefix. }
  assert (Hsq : force_square_check = false
                \/ fst (size img) = snd (size img)).
  { apply andb_false_iff in Hcheck as [H | H]; [left; assumption | right].
    apply negb_false_iff, Z.eqb_eq in H. assumption. }
  destruct (compute_effective_tile_size (width_px target) (height_px target)
              tiles_x tiles_y) as [eff | e] eqn:Heff.
  2: { left. rewrite (wallpaper_no_size img e) by assumption.
       cbn [snd]. rewrite <- (app_nil_r (load_calls img)). apply Hprefix. }
  rewrite (wallpaper_stages img eff) by assumption. cbv zeta.
  set (tiled := mkimage (eff * tiles_x, eff * tiles_y) "RGBA").
  set (tile := mkimage (eff, eff) "RGBA").
  set (log3 := [] ++ Open input_path :: _).
  assert (Hlog3 : saved log3 = []).
  { subst log3. rewrite Hprefix, saved_app, saved_resize_calls. cbn.
    apply saved_paste_calls. }
  destruct (Z_lt_ge_dec (eff * tiles_x) (width_px target)) as [Hw | Hw];
    [| destruct (Z_lt_ge_dec (eff * tiles_y) (height_px target)) as [Hh | Hh]].
  1, 2: left;
    rewrite (crop_to_target_too_small tiled (eff * tiles_x) (eff * tiles_y))
      by (reflexivity || lia);
    exact Hlog3.
  rewrite (crop_to_target_large_enough tiled (eff * tiles_x) (eff * tiles_y))
    by (reflexivity || lia).
  destruct (crop_offset (eff * tiles_x) (eff * tiles_y) (width_px target)
              (height_px target) anchor) as [[left_ top] | e] eqn:Hoff.
  2: { left. exact Hlog3. }
  right. exists eff, left_, top. cbv zeta. cbn [snd].
  split; [reflexivity|]. split.
  - apply in_or_app. left. apply in_or_app. right. left. reflexivity.
  - rewrite !saved_app, Hlog3. cbn [saved flat_map app].
    destruct (is_jpeg output_path); reflexivity.
Qed.


Lemma compute_effective_tile_size_raises (target_w target_h : Z) (e : exn) :
  compute_effective_tile_size target_w target_h tiles_x tiles_y = Raise e ->
  e = ZeroDivisionError \/ e = OverflowError.
Proof.
  assert (Hdiv : forall a b e', PyFloat.truediv a b = Raise e' ->
                  e' = ZeroDivisionError \/ e' = OverflowError).
  { intros a b e'. unfold PyFloat.truediv.
    destruct (b =? 0); [intros [= <-]; tauto|].
    destruct (a =? 0); [discriminate|].
    destruct (PyFloat.too_large _); [intros [= <-]; tauto | discriminate]. }
  unfold compute_effective_tile_size. cbn [bind result_monad].
  destruct (PyFloat.truediv target_w tiles_x) eqn:Hx; cbn.
  - destruct (PyFloat.truediv target_h tiles_y) eqn:Hy; cbn.
    + discriminate.
    + intros [= <-]. eapply Hdiv; eassumption.
  - intros [= <-]. eapply Hdiv; eassumption.
Qed.

(** A run that is past the square check does not fail with its message. *)
Lemma wallpaper_past_check (img : image) (log : list call) (w h : Z) :
  decode fs input_path = Some img ->
  force_square_check = false \/ fst (size img) = snd (size img) ->
  fst (wallpaper log) <> Raise (ValueError (TileNotSquare w h)).
Proof.
  intros Hdec Hsq.
  destruct (compute_effective_tile_size (width_px target) (height_px target)
              tiles_x tiles_y) as [eff | e] eqn:Heff.
  2: { rewrite (wallpaper_no_size img e) by assumption. cbn [fst].
       destruct (compute_effective_tile_size_raises _ _ _ Heff) as [-> | ->];
         discriminate. }
  rewrite (wallpaper_stages img eff) by assumption. cbv zeta.
  set (tiled := mkimage (eff * tiles_x, eff * tiles_y) "RGBA").
  set (log3 := log ++ Open input_path :: _).
  destruct (Z_lt_ge_dec (eff * tiles_x) (width_px target)) as [Hw | Hw];
    [| destruct (Z_lt_ge_dec (eff * tiles_y) (height_px target)) as [Hh | Hh]].
  1, 2: rewrite (crop_to_target_too_small tiled (eff * tiles_x) (eff * tiles_y))
      by (reflexivity || lia);
    discriminate.
  rewrite (crop_to_target_large_enough tiled (eff * tiles_x) (eff * tiles_y))
    by (reflexivity || lia).
  unfold crop_offset.
  repeat match goal with
  | |- context [String.eqb anchor ?s] => destruct (String.eqb anchor s)
  end;
  cbv beta iota zeta; cbn [fst];
  try discriminate;
  destruct (writable fs _ output_path); discriminate.
Qed.

(** Whatever the shape of the tile, a run that is past the square check and
    has its effective size resizes the tile to that size in both directions
    (unless it has it already) and builds a canvas of exactly
    [(eff * tiles_x, eff * tiles_y)]. *)
Lemma wallpaper_resizes_to_square (img : image) (eff : Z) :
  decode fs input_path = Some img ->
  force_square_check = false \/ fst (size img) = snd (size img) ->
  compute_effective_tile_size (width_px target) (height_px target)
    tiles_x tiles_y = Ok eff ->
  exists rest : list call,
    snd (wallpaper []) =
      Open input_path :: load_calls img
        ++ resize_calls img eff resample
        ++ New "RGBA" (eff * tiles_x, eff * tiles_y) (0, 0, 0, 0)
        :: paste_calls (mkimage (eff * tiles_x, eff * tiles_y) "RGBA")
             (mkimage (eff, eff) "RGBA") tiles_x tiles_y
        ++ rest.
Proof.
  intros Hdec Hsq Heff.
  rewrite (wallpaper_stages img eff) by assumption. cbv zeta.
  set (tiled := mkimage (eff * tiles_x, eff * tiles_y) "RGBA").
  set (log3 := [] ++ Open input_path :: _).
  assert (Hrest : forall rest,
    log3 ++ rest =
    Open input_path :: load_calls img ++ resize_calls img eff resample
      ++ New "RGBA" (eff * tiles_x, eff * tiles_y) (0, 0, 0, 0)
      :: paste_calls tiled (mkimage (eff, eff) "RGBA") tiles_x tiles_y
      ++ rest).
  { intros rest. subst log3. cbn [app size tiled].
    repeat (rewrite <- app_assoc; cbn [app]). reflexivity. }
  destruct (crop_to_target tiled (width_px target) (height_px target) anchor
              log3) as [[out | e] log4] eqn:Hcrop.
  - assert (Hlog4 : exists l, log4 = log3 ++ l).
    { destruct (Z_lt_ge_dec (eff * tiles_x) (width_px target)) as [Hw | Hw];
        [| destruct (Z_lt_ge_dec (eff * tiles_y) (height_px target))
             as [Hh | Hh]].
      1, 2: rewrite (crop_to_target_too_small tiled (eff * tiles_x)
                       (eff * tiles_y)) in Hcrop by (reflexivity || lia);
        discriminate.
      rewrite (crop_to_target_large_enough tiled (eff * tiles_x)
                 (eff * tiles_y)) in Hcrop by (reflexivity || lia).
      destruct (crop_offset _ _ _ _ anchor) as [[left_ top] | e];
        [| discriminate].
      injection Hcrop as _ <-. eexists. reflexivity. }
    destruct Hlog4 as [l ->]. cbn [snd]. rewrite <- app_assoc.
    eexists. apply Hrest.
  - assert (Hlog4 : log4 = log3).
    { destruct (Z_lt_ge_dec (eff * tiles_x) (width_px target)) as [Hw | Hw];
        [| destruct (Z_lt_ge_dec (eff * tiles_y) (height_px target))
             as [Hh | Hh]].
      1, 2: rewrite (crop_to_target_too_small tiled (eff * tiles_x)
                       (eff * tiles_y)) in Hcrop by (reflexivity || lia);
        injection Hcrop as _ <-; reflexivity.
      rewrite (crop_to_target_large_enough tiled (eff * tiles_x)
                 (eff * tiles_y)) in Hcrop by (reflexivity || lia).
      destruct (crop_offset _ _ _ _ anchor) as [[left_ top] | e'];
        [discriminate|].
      injection Hcrop as _ <-. reflexivity. }
    rewrite Hlog4. cbn [snd]. exists []. rewrite <- Hrest.
    rewrite app_nil_r. reflexivity.
Qed.

End Pipeline.



(** C7.  When the loaded tile is not square: with the square check on, the
    run fails with [InvalidValue] (the "must be square" error) having made
    no call that resizes, tiles, crops or saves, so that no output is
    produced; with the check off, the run does not stop there: it never
    fails with that error, and once the effective size is computed it goes
    on to resize the tile. *)
Theorem square_check_fails_fast (fs : files) (input_path output_path : string)
    (tiles_x tiles_y : Z) (target : TargetSpec) (anchor : string)
    (resample : Z) (img : image) :
  decode fs input_path = Some img ->
  fst (size img) <> snd (size img) ->
  let checked := make_pattern_wallpaper fs input_path output_path
                   tiles_x tiles_y target anchor resample true [] in
  let unchecked := make_pattern_wallpaper fs input_path output_path
                     tiles_x tiles_y target anchor resample false [] in
  (fst checked =
     Raise (ValueError (TileNotSquare (fst (size img)) (snd (size img)))) /\
   fails_with (fst checked) InvalidValue /\
   existsb is_work (snd checked) = false /\
   saved (snd checked) = []) /\
  ((forall w h, fst unchecked <> Raise (ValueError (TileNotSquare w h))) /\
   (forall eff,
      compute_effective_tile_size (width_px target) (height_px target)
        tiles_x tiles_y = Ok eff ->
      In (Resize (mkimage (size img) "RGBA") (eff, eff) resample)
         (snd unchecked))).
Proof.
  intros Hdec Hneq checked unchecked. split.
  - subst checked.
    rewrite (wallpaper_not_square _ _ _ _ _ _ _ _ _ img)
      by (assumption || reflexivity).
    cbn [fst snd app]. repeat split.
    + eexists. split; reflexivity.
    + unfold load_calls. destruct (mode img =? "RGBA")%string; reflexivity.
    + cbn. apply saved_load_calls.
  - subst unchecked. split.
    + intros w h. apply (wallpaper_past_check _ _ _ _ _ _ _ _ _ img);
        [assumption | left; reflexivity].
    + intros eff Heff.
      destruct (wallpaper_resizes_to_square fs input_path output_path tiles_x
                  tiles_y target anchor resample false img eff Hdec
                  ltac:(left; reflexivity) Heff) as [rest ->].
      right. apply in_or_app. right. apply in_or_app. left.
      unfold resize_calls.
      assert (Hsz : size_eqb (size img) (eff, eff) = false).
      { unfold size_eqb. cbn [fst snd].
        destruct (Z.eqb_spec (fst (size img)) eff) as [H1|]; [|reflexivity].
        destruct (Z.eqb_spec (snd (size img)) eff) as [H2|]; [|reflexivity].
        congruence. }
      rewrite Hsz. left. reflexivity.
Qed.

Lemma square_check_fails_fast_witness :
  let fs := holding (mkimage (100, 50) "RGB") in
  fst (make_pattern_wallpaper fs "tile.jpg" "out/wall.png" 2 2
         (mkTargetSpec 3840 2160 DPI) "center" PIL.LANCZOS true []) =
    Raise (ValueError (TileNotSquare 100 50)) /\
  In (Resize (mkimage (100, 50) "RGBA") (1920, 1920) PIL.LANCZOS)
     (snd (make_pattern_wallpaper fs "tile.jpg" "out/wall.png" 2 2
             (mkTargetSpec 3840 2160 DPI) "center" PIL.LANCZOS false [])).
Proof.
  intros fs.
  pose proof (square_check_fails_fast fs "tile.jpg" "out/wall.png" 2 2
                (mkTargetSpec 3840 2160 DPI) "center" PIL.LANCZOS
                (mkimage (100, 50) "RGB") eq_refl ltac:(cbn; lia))
    as [(Hchecked & _) (_ & Hunchecked)].
  split; [exact Hchecked |].
  apply (Hunchecked 1920). vm_compute. reflexivity.
Defined.

(** C8.  In every run, the image given to [save] has no alpha channel
    exactly when the extension of the output path, in lower case, is ".jpg"
    or ".jpeg"; for any other extension it is the cropped image itself, as
    [crop_to_target] returned it. *)
Theorem alpha_dropped_only_for_jpeg (fs : files)
    (input_path output_path : string) (tiles_x tiles_y : Z)
    (target : TargetSpec) (anchor : string) (resample : Z)
    (force_square_check : bool)
    (img : image) (path : string) (d : Z * Z) :
  let log := snd (make_pattern_wallpaper fs input_path output_path
                    tiles_x tiles_y target anchor resample
                    force_square_check []) in
  let ext := PyStr.lower (snd (PyStr.splitext output_path)) in
  In (Save img path d) log ->
  path = output_path /\
  (PIL.has_alpha (mode img) = false <->
   ext = ".jpg"%string \/ ext = ".jpeg"%string) /\
  (~ (ext = ".jpg"%string \/ ext = ".jpeg"%string) ->
   PIL.has_alpha (mode img) = true /\
   exists tiled window,
     In (Crop tiled window) log /\ img = PIL.cropped tiled window).
Proof.
  intros log ext Hin. subst log.
  apply saved_In in Hin.
  assert (Hext : is_jpeg output_path = true <->
                 ext = ".jpg"%string \/ ext = ".jpeg"%string).
  { unfold is_jpeg. fold ext. rewrite orb_true_iff, !String.eqb_eq. tauto. }
  destruct (wallpaper_outcome fs input_path output_path tiles_x tiles_y
              target anchor resample force_square_check)
    as [Hnone | (eff & left_ & top & _ & Hcrop & Hsaved)].
  { rewrite Hnone in Hin. contradiction. }
  cbv zeta in Hcrop, Hsaved. rewrite Hsaved in Hin.
  destruct Hin as [Heq | []]. injection Heq as <- <- <-.
  split; [reflexivity|].
  destruct (is_jpeg output_path) eqn:Hjpeg.
  - split; [split; [intros _; apply Hext; reflexivity | reflexivity] |].
    intros Hnot. exfalso. apply Hnot, Hext. reflexivity.
  - assert (Hnot : ~ (ext = ".jpg"%string \/ ext = ".jpeg"%string)).
    { intros H. apply Hext in H. discriminate. }
    split; [split; [discriminate | intros H; contradiction] |].
    intros _. split; [reflexivity|].
    eexists. eexists. split; [exact Hcrop | reflexivity].
Qed.

Lemma alpha_dropped_only_for_jpeg_witness :
  let fs := holding (mkimage (500, 500) "RGBA") in
  (exists img, In (Save img "out/wall.JPG" (300, 300))
                 (snd (make_pattern_wallpaper fs "tile.png" "out/wall.JPG"
                         3 3 (mkTargetSpec 1200 1200 DPI) "center"
                         PIL.LANCZOS true []))
               /\ PIL.has_alpha (mode img) = false) /\
  (exists img, In (Save img "out/wall.png" (300, 300))
                 (snd (make_pattern_wallpaper fs "tile.png" "out/wall.png"
                         3 3 (mkTargetSpec 1200 1200 DPI) "center"
                         PIL.LANCZOS true []))
               /\ PIL.has_alpha (mode img) = true).
Proof.
  intros fs. split.
  - exists (mkimage (1200, 1200) "RGB").
    assert (Hin : In (Save (mkimage (1200, 1200) "RGB") "out/wall.JPG"
                        (300, 300))
                     (snd (make_pattern_wallpaper fs "tile.png" "out/wall.JPG"
                             3 3 (mkTargetSpec 1200 1200 DPI) "center"
                             PIL.LANCZOS true [])))
      by (vm_compute; tauto).
    split; [exact Hin |].
    apply (alpha_dropped_only_for_jpeg _ _ _ _ _ _ _ _ _ _ _ _ Hin).
    left. vm_compute. reflexivity.
  - exists (mkimage (1200, 1200) "RGBA").
    assert (Hin : In (Save (mkimage (1200, 1200) "RGBA") "out/wall.png"
                        (300, 300))
                     (snd (make_pattern_wallpaper fs "tile.png" "out/wall.png"
                             3 3 (mkTargetSpec 1200 1200 DPI) "center"
                             PIL.LANCZOS true [])))
      by (vm_compute; tauto).
    split; [exact Hin |].
    apply (alpha_dropped_only_for_jpeg _ _ _ _ _ _ _ _ _ _ _ _ Hin).
    vm_compute. intros [H | H]; discriminate H.
Defined.


(** ** Strings *)

Module PyStrFacts.
Import PyStr.

Local Open Scope string_scope.

Ltac each_char c :=
  destruct c as [[|] [|] [|] [|] [|] [|] [|] [|]]; vm_compute;
  try reflexivity; try discriminate; try tauto.

Lemma lower_char_x (c : ascii) :
  Ascii.eqb (lower_char c) "x" = Ascii.eqb c "x" || Ascii.eqb c "X".
Proof. each_char c. Qed.

Lemma lower_char_star (c : ascii) :
  Ascii.eqb (lower_char c) "*" = Ascii.eqb c "*".
Proof. each_char c. Qed.

Lemma is_space_x (c : ascii) : is_space c = true -> Ascii.eqb c "x" = false.
Proof. each_char c. Qed.

Lemma literal_char_inert (c : ascii) :
  is_literal_char c = true ->
  lower_char c = c /\ Ascii.eqb c "*" = false /\ Ascii.eqb c "x" = false /\
  Ascii.eqb c "X" = false /\ is_space c = false /\ is_int_space c = false.
Proof. each_char c; repeat split. Qed.

Lemma contains_lower_x (s : string) :
  contains "x" (lower s) = contains "x" s || contains "X" s.
Proof.
  induction s as [| c s IH]; [reflexivity|].
  cbn [lower contains]. rewrite IH, lower_char_x.
  destruct (Ascii.eqb c "x"), (Ascii.eqb c "X"), (contains "x" s),
    (contains "X" s); reflexivity.
Qed.

Lemma contains_lower_star (s : string) :
  contains "*" (lower s) = contains "*" s.
Proof.
  induction s as [| c s IH]; [reflexivity|].
  cbn [lower contains]. rewrite IH, lower_char_star. reflexivity.
Qed.

Lemma contains_replace_star (s : string) :
  contains "x" (replace "*" "x" s) = contains "x" s || contains "*" s.
Proof.
  induction s as [| c s IH]; [reflexivity|].
  cbn [replace contains]. rewrite IH.
  destruct (Ascii.eqb_spec c "*") as [-> | Hc].
  - cbn. destruct (contains "x" s); reflexivity.
  - destruct (Ascii.eqb c "x"), (contains "x" s), (contains "*" s); reflexivity.
Qed.

(** Stripping white space neither removes nor adds an [x]. *)
Lemma contains_lstrip_x (s : string) :
  contains "x" (lstrip is_space s) = contains "x" s.
Proof.
  induction s as [| c s IH]; [reflexivity|].
  cbn [lstrip]. destruct (is_space c) eqn:Hsp; [|reflexivity].
  cbn [contains]. rewrite (is_space_x c Hsp). exact IH.
Qed.

Lemma rstrip_empty (space : ascii -> bool) (s : string) :
  rstrip space s = "" -> all space s = true.
Proof.
  induction s as [| c s IH]; [reflexivity|].
  cbn [rstrip all]. destruct (rstrip space s) eqn:Hr.
  - destruct (space c); [intros _; apply IH; reflexivity | discriminate].
  - discriminate.
Qed.

Lemma contains_all_space_x (s : string) :
  all is_space s = true -> contains "x" s = false.
Proof.
  induction s as [| c s IH]; [reflexivity|].
  cbn [all contains]. intros H. apply andb_prop in H as [Hc Hs].
  rewrite (is_space_x c Hc), (IH Hs). reflexivity.
Qed.

Lemma contains_rstrip_x (s : string) :
  contains "x" (rstrip is_space s) = contains "x" s.
Proof.
  induction s as [| c s IH]; [reflexivity|].
  cbn [rstrip]. destruct (rstrip is_space s) as [| d r] eqn:Hr.
  - pose proof (contains_all_space_x s (rstrip_empty _ _ Hr)) as Hs.
    cbn [contains]. rewrite Hs.
    destruct (is_space c) eqn:Hsp.
    + rewrite (is_space_x c Hsp). reflexivity.
    + cbn. reflexivity.
  - cbn [contains] in *. rewrite IH. reflexivity.
Qed.

Lemma contains_strip_x (s : string) : contains "x" (strip s) = contains "x" s.
Proof. unfold strip. rewrite contains_rstrip_x. apply contains_lstrip_x. Qed.

(** Where the two parsers look for their separator. *)
Lemma tiles_separator (s : string) :
  contains "x" (strip (replace "*" "x" (lower s))) = has_tiles_separator s.
Proof.
  unfold has_tiles_separator.
  rewrite contains_strip_x, contains_replace_star, contains_lower_x,
    contains_lower_star.
  reflexivity.
Qed.

Lemma size_separator (s : string) :
  contains "x" (strip (lower s)) = has_size_separator s.
Proof.
  unfold has_size_separator. rewrite contains_strip_x. apply contains_lower_x.
Qed.

(** *** Strings of inert characters *)

Lemma all_app (p : ascii -> bool) (s t : string) :
  all p (s ++ t) = all p s && all p t.
Proof.
  induction s as [| c s IH]; [reflexivity|].
  cbn [append all]. rewrite IH. apply andb_assoc.
Qed.

Lemma all_weaken (p q : ascii -> bool) (s : string) :
  (forall c, p c = true -> q c = true) -> all p s = true -> all q s = true.
Proof.
  intros Hpq. induction s as [| c s IH]; [reflexivity|].
  cbn [all]. intros H. apply andb_prop in H as [Hc Hs].
  rewrite (Hpq c Hc), (IH Hs). reflexivity.
Qed.

Lemma lower_app (s t : string) : lower (s ++ t) = lower s ++ lower t.
Proof.
  induction s as [| c s IH]; [reflexivity|]. cbn. rewrite IH. reflexivity.
Qed.

Lemma replace_app (a b : ascii) (s t : string) :
  replace a b (s ++ t) = replace a b s ++ replace a b t.
Proof.
  induction s as [| c s IH]; [reflexivity|]. cbn. rewrite IH. reflexivity.
Qed.

Lemma lower_literal (s : string) : all is_literal_char s = true -> lower s = s.
Proof.
  induction s as [| c s IH]; [reflexivity|].
  cbn [all lower]. intros H. apply andb_prop in H as [Hc Hs].
  rewrite (IH Hs). destruct (literal_char_inert c Hc) as (-> & _). reflexivity.
Qed.

Lemma replace_literal (s : string) :
  all is_literal_char s = true -> replace "*" "x" s = s.
Proof.
  induction s as [| c s IH]; [reflexivity|].
  cbn [all replace]. intros H. apply andb_prop in H as [Hc Hs].
  rewrite (IH Hs). destruct (literal_char_inert c Hc) as (_ & -> & _).
  reflexivity.
Qed.

Lemma contains_literal (s : string) :
  all is_literal_char s = true ->
  contains "x" s = false /\ contains "X" s = false /\ contains "*" s = false.
Proof.
  induction s as [| c s IH]; [repeat split|].
  cbn [all contains]. intros H. apply andb_prop in H as [Hc Hs].
  destruct (IH Hs) as (-> & -> & ->).
  destruct (literal_char_inert c Hc) as (_ & -> & -> & -> & _).
  repeat split.
Qed.

Lemma lstrip_unspaced (space : ascii -> bool) (s : string) :
  all (fun c => negb (space c)) s = true -> lstrip space s = s.
Proof.
  destruct s as [| c s]; [reflexivity|].
  cbn [all lstrip]. intros H. apply andb_prop in H as [Hc _].
  apply negb_true_iff in Hc. rewrite Hc. reflexivity.
Qed.

Lemma rstrip_unspaced (space : ascii -> bool) (s : string) :
  all (fun c => negb (space c)) s = true -> rstrip space s = s.
Proof.
  induction s as [| c s IH]; [reflexivity|].
  cbn [all rstrip]. intros H. apply andb_prop in H as [Hc Hs].
  apply negb_true_iff in Hc. rewrite (IH Hs), Hc.
  destruct s; reflexivity.
Qed.

Lemma split_once_app (s t : string) :
  contains "x" s = false -> split_once "x" (s ++ String "x" t) = (s, t).
Proof.
  induction s as [| c s IH]; [reflexivity|].
  cbn [contains append split_once]. intros H.
  apply orb_false_iff in H as [Hc Hs]. rewrite Hc, (IH Hs). reflexivity.
Qed.

Lemma contains_app_x (s t : string) :
  contains "x" (s ++ String "x" t) = true.
Proof.
  induction s as [| c s IH]; [reflexivity|].
  cbn [append contains]. rewrite IH. apply orb_true_r.
Qed.

(** *** [str] and [int] *)

Lemma string_of_uint_digits (d : Decimal.uint) :
  all is_digit (DecimalString.NilEmpty.string_of_uint d) = true.
Proof. induction d; cbn; auto. Qed.

Lemma digit_literal (c : ascii) : is_digit c = true -> is_literal_char c = true.
Proof. unfold is_literal_char. intros ->. reflexivity. Qed.

Lemma str_literal (z : Z) : all is_literal_char (str z) = true.
Proof.
  assert (Hu : forall d,
            all is_literal_char (DecimalString.NilZero.string_of_uint d) = true).
  { intros d. apply (all_weaken is_digit); [exact digit_literal|].
    destruct d; try apply string_of_uint_digits. reflexivity. }
  unfold str. destruct z as [| p | p]; cbn.
  - reflexivity.
  - apply Hu.
  - apply Hu.
Qed.

Lemma more_digits_of_uint (d : Decimal.uint) :
  more_digits (DecimalString.NilEmpty.string_of_uint d) = Some d.
Proof. induction d; cbn; rewrite ?IHd; reflexivity. Qed.

Lemma digits_of_uint (d : Decimal.uint) :
  d <> Decimal.Nil ->
  digits (DecimalString.NilZero.string_of_uint d) = Some d.
Proof.
  destruct d; intros Hd; try contradiction; cbn;
    rewrite more_digits_of_uint; reflexivity.
Qed.

(** [int(str(z))] is [z]. *)
Lemma py_int_str (z : Z) : py_int (str z) = Ok z.
Proof.
  unfold py_int.
  assert (Hunspaced : all (fun c => negb (is_int_space c)) (str z) = true).
  { apply (all_weaken is_literal_char); [| apply str_literal].
    intros c Hc. destruct (literal_char_inert c Hc) as (_ & _ & _ & _ & _ & ->).
    reflexivity. }
  rewrite (lstrip_unspaced _ _ Hunspaced), (rstrip_unspaced _ _ Hunspaced).
  pose proof (DecimalZ.of_to z) as Hz.
  unfold str. destruct z as [| p | p].
  - reflexivity.
  - cbn [Z.to_int DecimalString.NilZero.string_of_int] in *.
    pose proof (DecimalPos.Unsigned.to_uint_nonnil p) as Hnil.
    cbn [Z.of_int] in Hz.
    destruct (Pos.to_uint p) as [| d | d | d | d | d | d | d | d | d | d];
      try contradiction; cbn; rewrite more_digits_of_uint; cbn;
      f_equal; exact Hz.
  - cbn [Z.to_int DecimalString.NilZero.string_of_int] in *.
    pose proof (DecimalPos.Unsigned.to_uint_nonnil p) as Hnil.
    cbn [Z.of_int] in Hz.
    cbv beta iota. rewrite (digits_of_uint _ Hnil). cbn [option_map].
    f_equal. exact Hz.
Qed.

End PyStrFacts.

(** ** The parsers *)

Section Parsers.
Import PyStr PyStrFacts.
Local Open Scope string_scope.

(** A token [a sep b] of two decimal literals around a lower-case [x],
    as [parse_tiles] and [parse_size] see it once it is normalised. *)
Lemma parse_fields (a b : Z) :
  let token := str a ++ String "x" (str b) in
  strip token = token /\ contains "x" token = true /\
  split_once "x" token = (str a, str b).
Proof.
  intros token. subst token.
  destruct (contains_literal (str a) (str_literal a)) as (Hx & _).
  split; [| split].
  - assert (Hunspaced : all (fun c => negb (is_space c))
                          (str a ++ String "x" (str b)) = true).
    { rewrite all_app. cbn [all].
      assert (Hlit : forall z, all (fun c => negb (is_space c)) (str z) = true).
      { intros z. apply (all_weaken is_literal_char); [| apply str_literal].
        intros c Hc.
        destruct (literal_char_inert c Hc) as (_ & _ & _ & _ & -> & _).
        reflexivity. }
      rewrite !Hlit. reflexivity. }
    unfold strip.
    rewrite (lstrip_unspaced _ _ Hunspaced). apply rstrip_unspaced, Hunspaced.
  - apply contains_app_x.
  - apply split_once_app, Hx.
Qed.

Lemma parse_tiles_literals (a b : Z) (sep : ascii) :
  sep = "x"%char \/ sep = "X"%char \/ sep = "*"%char ->
  0 < a -> 0 < b ->
  parse_tiles (str a ++ String sep (str b)) = Ok (a, b).
Proof.
  intros Hsep Ha Hb. unfold parse_tiles.
  assert (Hnorm : replace "*" "x" (lower (str a ++ String sep (str b)))
                  = str a ++ String "x" (str b)).
  { rewrite lower_app, replace_app. cbn [lower replace].
    rewrite !lower_literal, !replace_literal by apply str_literal.
    destruct Hsep as [-> | [-> | ->]]; reflexivity. }
  rewrite Hnorm.
  destruct (parse_fields a b) as (-> & -> & ->). cbn [negb].
  rewrite !py_int_str. cbn.
  destruct (Z.leb_spec a 0); [lia|]. destruct (Z.leb_spec b 0); [lia|].
  reflexivity.
Qed.

Lemma parse_size_literals (w h : Z) (sep : ascii) :
  sep = "x"%char \/ sep = "X"%char ->
  0 < w -> 0 < h ->
  parse_size (str w ++ String sep (str h)) = Ok (w, h).
Proof.
  intros Hsep Hw Hh. unfold parse_size.
  assert (Hnorm : lower (str w ++ String sep (str h))
                  = str w ++ String "x" (str h)).
  { rewrite lower_app. cbn [lower].
    rewrite !lower_literal by apply str_literal.
    destruct Hsep as [-> | ->]; reflexivity. }
  rewrite Hnorm.
  destruct (parse_fields w h) as (-> & -> & ->). cbn [negb].
  rewrite !py_int_str. cbn.
  destruct (Z.leb_spec w 0); [lia|]. destruct (Z.leb_spec h 0); [lia|].
  reflexivity.
Qed.

Lemma parse_tiles_no_separator (s : string) :
  has_tiles_separator s = false ->
  parse_tiles s = Raise (ArgumentTypeError TilesShape).
Proof.
  intros Hsep. unfold parse_tiles. rewrite tiles_separator, Hsep. reflexivity.
Qed.

Lemma parse_size_no_separator (s : string) :
  has_size_separator s = false ->
  parse_size s = Raise (ArgumentTypeError SizeShape).
Proof.
  intros Hsep. unfold parse_size. rewrite size_separator, Hsep. reflexivity.
Qed.

(** With a separator, the outcome is decided by the two fields. *)
Lemma parse_tiles_by_fields (s : string) :
  has_tiles_separator s = true ->
  parse_tiles s =
  match PyStr.py_int (fst (tiles_fields s)), PyStr.py_int (snd (tiles_fields s))
  with
  | Ok tx, Ok ty =>
      if ((tx <=? 0) || (ty <=? 0))%Z then Raise (ArgumentTypeError TilesPositive)
      else Ok (tx, ty)
  | _, _ => Raise (ArgumentTypeError TilesIntegers)
  end.
Proof.
  intros Hsep. unfold parse_tiles, tiles_fields.
  rewrite tiles_separator, Hsep. cbn [negb].
  destruct (split_once "x" _) as [fa fb]. cbn [fst snd].
  unfold py_int.
  destruct (match rstrip is_int_space (lstrip is_int_space fa) with
            | EmptyString => _ | String _ _ => _ end) as [tx |];
    [| reflexivity].
  destruct (match rstrip is_int_space (lstrip is_int_space fb) with
            | EmptyString => _ | String _ _ => _ end) as [ty |];
    reflexivity.
Qed.

Lemma parse_size_by_fields (s : string) :
  has_size_separator s = true ->
  parse_size s =
  match PyStr.py_int (fst (size_fields s)), PyStr.py_int (snd (size_fields s))
  with
  | Ok w, Ok h =>
      if ((w <=? 0) || (h <=? 0))%Z then Raise (ArgumentTypeError SizePositive)
      else Ok (w, h)
  | _, _ => Raise (ArgumentTypeError SizeIntegers)
  end.
Proof.
  intros Hsep. unfold parse_size, size_fields.
  rewrite size_separator, Hsep. cbn [negb].
  destruct (split_once "x" _) as [fa fb]. cbn [fst snd].
  unfold py_int.
  destruct (match rstrip is_int_space (lstrip is_int_space fa) with
            | EmptyString => _ | String _ _ => _ end) as [w |];
    [| reflexivity].
  destruct (match rstrip is_int_space (lstrip is_int_space fb) with
            | EmptyString => _ | String _ _ => _ end) as [h |];
    reflexivity.
Qed.

Lemma contains_app (c : ascii) (s t : string) :
  contains c (s ++ t) = contains c s || contains c t.
Proof.
  induction s as [| d s IH]; [reflexivity|].
  cbn [append contains]. rewrite IH. apply orb_assoc.
Qed.


End Parsers.





(** ** The example of the specification

    A 500 x 500 tile repeated 3 x 3 over a target of 1200 x 1200: the
    effective size is 400, the tile is resized to 400 x 400, the canvas is
    1200 x 1200 and the crop window starts at (0, 0). *)
Example round_trip_scale :
  compute_effective_tile_size 1200 1200 3 3 = Ok 400 /\
  make_pattern_wallpaper (holding (mkimage (500, 500) "RGBA"))
    "tile.png" "out/wall.png" 3 3 (mkTargetSpec 1200 1200 DPI) "center"
    PIL.LANCZOS true [] =
  (Ok tt,
   let tile := mkimage (400, 400) "RGBA" in
   let canvas := mkimage (1200, 1200) "RGBA" in
   [ Open "tile.png";
     Resize (mkimage (500, 500) "RGBA") (400, 400) PIL.LANCZOS;
     New "RGBA" (1200, 1200) (0, 0, 0, 0);
     Paste canvas tile (0, 0); Paste canvas tile (400, 0);
     Paste canvas tile (800, 0);
     Paste canvas tile (0, 400); Paste canvas tile (400, 400);
     Paste canvas tile (800, 400);
     Paste canvas tile (0, 800); Paste canvas tile (400, 800);
     Paste canvas tile (800, 800);
     Crop canvas (0, 0, 1200, 1200);
     Save canvas "out/wall.png" (300, 300) ]).
Proof. split; vm_compute; reflexivity. Qed.

(** * Further properties of the code *)

(** ** The effective tile size *)

(** X1.  For a target of up to [2 ^ 53] pixels a side and counts below
    [2 ^ 1075], [compute_effective_tile_size] returns a positive integer
    [s] with [tiles_x * s >= target_w] and [tiles_y * s >= target_h], and
    no smaller integer covers the target: the float arithmetic is exact
    there. *)
Theorem effective_size_exact_in_range (target_w target_h tiles_x tiles_y : Z) :
  0 < target_w <= 2 ^ 53 -> 0 < target_h <= 2 ^ 53 ->
  0 < tiles_x < 2 ^ 1075 -> 0 < tiles_y < 2 ^ 1075 ->
  exists s,
    compute_effective_tile_size target_w target_h tiles_x tiles_y = Ok s /\
    0 < s /\
    tiles_x * s >= target_w /\ tiles_y * s >= target_h /\
    forall s', tiles_x * s' >= target_w -> tiles_y * s' >= target_h -> s <= s'.
Proof.
  intros Hw Hh Hx Hy.
  destruct (effective_size_least_in_range _ _ _ _ Hw Hh Hx Hy)
    as (s & Hs & Hcw & Hch & Hleast).
  exists s. repeat split; try assumption. nia.
Qed.

Lemma effective_size_exact_in_range_witness :
  exists s,
    compute_effective_tile_size 1080 1920 3 6 = Ok s /\
    0 < s /\ 3 * s >= 1080 /\ 6 * s >= 1920 /\
    forall s', 3 * s' >= 1080 -> 6 * s' >= 1920 -> s <= s'.
Proof.
  apply (effective_size_exact_in_range 1080 1920 3 6); split;
    solve [lia | apply Z.pow_pos_nonneg; lia
           | vm_compute; intros H; discriminate H
           | vm_compute; reflexivity].
Defined.

(** X2.  With [tiles_x = 0], [compute_effective_tile_size] raises
    [ZeroDivisionError]; with [tiles_y = 0] it never returns either: it
    raises [ZeroDivisionError], or the [OverflowError] of the first
    division. *)
Theorem effective_size_zero_count (target_w target_h tiles_x tiles_y : Z) :
  (tiles_x = 0 ->
   compute_effective_tile_size target_w target_h tiles_x tiles_y
   = Raise ZeroDivisionError) /\
  (tiles_y = 0 ->
   compute_effective_tile_size target_w target_h tiles_x tiles_y
   = Raise ZeroDivisionError \/
   compute_effective_tile_size target_w target_h tiles_x tiles_y
   = Raise OverflowError).
Proof.
  split.
  - intros ->. reflexivity.
  - intros ->. unfold compute_effective_tile_size. cbn [bind result_monad].
    destruct (PyFloat.truediv target_w tiles_x) as [x | e] eqn:Hx.
    + left. reflexivity.
    + cbn. unfold PyFloat.truediv in Hx.
      destruct (tiles_x =? 0); [injection Hx as <-; left; reflexivity|].
      destruct (target_w =? 0); [discriminate|].
      destruct (PyFloat.too_large _); [|discriminate].
      injection Hx as <-. right. reflexivity.
Qed.

Lemma effective_size_zero_count_witness :
  compute_effective_tile_size 3840 2160 0 2 = Raise ZeroDivisionError /\
  (compute_effective_tile_size 3840 2160 2 0 = Raise ZeroDivisionError \/
   compute_effective_tile_size 3840 2160 2 0 = Raise OverflowError).
Proof.
  split.
  - apply (effective_size_zero_count 3840 2160 0 2). reflexivity.
  - apply (effective_size_zero_count 3840 2160 2 0). reflexivity.
Defined.

(** X3.  Turning the target and the grid by a quarter turn does not change
    the effective size: when [compute_effective_tile_size] returns [s] for
    a target [(w, h)] and counts [(x, y)], it returns [s] for [(h, w)] and
    [(y, x)]. *)
Theorem effective_size_transposed (target_w target_h tiles_x tiles_y s : Z) :
  compute_effective_tile_size target_w target_h tiles_x tiles_y = Ok s ->
  compute_effective_tile_size target_h target_w tiles_y tiles_x = Ok s.
Proof.
  unfold compute_effective_tile_size. cbn [bind result_monad].
  destruct (PyFloat.truediv target_w tiles_x) as [x | e]; [|discriminate].
  destruct (PyFloat.truediv target_h tiles_y) as [y | e]; [|discriminate].
  cbn. intros [= <-]. f_equal.
  rewrite !PyFloatFacts.ceil_max. apply Z.max_comm.
Qed.

Lemma effective_size_transposed_witness :
  compute_effective_tile_size 1920 1080 6 3 = Ok 360.
Proof.
  apply (effective_size_transposed 1080 1920 3 6 360).
  vm_compute. reflexivity.
Defined.

(** ** Cropping *)

(** X4.  With the center anchor, on an image at least as large as the
    target, the margins cut off on opposite sides differ by at most one
    pixel, the larger one being on the right and at the bottom. *)
Theorem crop_center_is_balanced (img : image) (W H w h : Z) (log : list call) :
  size img = (W, H) -> W >= w -> H >= h ->
  exists left_ top : Z,
    snd (crop_to_target img w h "center" log) =
      log ++ [Crop img (left_, top, left_ + w, top + h)] /\
    0 <= (W - (left_ + w)) - left_ <= 1 /\
    0 <= (H - (top + h)) - top <= 1.
Proof.
  intros Hsize HW HH.
  rewrite (crop_to_target_large_enough img W H) by (assumption || lia).
  cbn. eexists. eexists. split; [reflexivity|].
  pose proof (Z.div_mod (W - w) 2 ltac:(lia)).
  pose proof (Z.mod_pos_bound (W - w) 2 ltac:(lia)).
  pose proof (Z.div_mod (H - h) 2 ltac:(lia)).
  pose proof (Z.mod_pos_bound (H - h) 2 ltac:(lia)).
  lia.
Qed.

Lemma crop_center_is_balanced_witness :
  exists left_ top : Z,
    snd (crop_to_target (mkimage (1301, 1250) "RGBA") 1200 1200 "center" []) =
      [] ++ [Crop (mkimage (1301, 1250) "RGBA")
               (left_, top, left_ + 1200, top + 1200)] /\
    0 <= (1301 - (left_ + 1200)) - left_ <= 1 /\
    0 <= (1250 - (top + 1200)) - top <= 1.
Proof.
  apply (crop_center_is_balanced (mkimage (1301, 1250) "RGBA") 1301 1250
           1200 1200 []); [reflexivity | lia | lia].
Defined.

(** X5.  On an image that has exactly the target size, the anchor does not
    matter: each of the five anchors crops the window [(0, 0, w, h)], the
    whole image. *)
Theorem crop_of_exact_size (img : image) (w h : Z) (anchor : string)
    (log : list call) :
  size img = (w, h) -> In anchor anchors ->
  crop_to_target img w h anchor log =
    (Ok (mkimage (w, h) (mode img)), log ++ [Crop img (0, 0, w, h)]).
Proof.
  intros Hsize Hin.
  rewrite (crop_to_target_large_enough img w h) by (assumption || lia).
  rewrite (crop_offset_anchor _ _ _ _ _ Hin).
  rewrite !Z.sub_diag. change (0 / 2) with 0.
  repeat match goal with
  | |- context [String.eqb anchor ?s] => destruct (String.eqb anchor s)
  end;
  cbn; rewrite !Z.sub_0_r; reflexivity.
Qed.

Lemma crop_of_exact_size_witness :
  crop_to_target (mkimage (1200, 1200) "RGBA") 1200 1200 "bottomright" [] =
    (Ok (mkimage (1200, 1200) "RGBA"),
     [Crop (mkimage (1200, 1200) "RGBA") (0, 0, 1200, 1200)]).
Proof.
  apply (crop_of_exact_size (mkimage (1200, 1200) "RGBA") 1200 1200
           "bottomright" []).
  - reflexivity.
  - unfold anchors. cbn [In]. tauto.
Defined.



(** ** Tiling *)

Lemma in_range (n x : Z) : In x (range n) <-> 0 <= x < n.
Proof.
  unfold range. rewrite in_map_iff. split.
  - intros (k & <- & Hk). apply in_seq in Hk. lia.
  - intros Hx. exists (Z.to_nat x). split; [lia|]. apply in_seq. lia.
Qed.


Lemma in_paste_calls (canvas tile : image) (tiles_x tiles_y : Z) (c : call) :
  In c (paste_calls canvas tile tiles_x tiles_y) <->
  exists x y, 0 <= x < tiles_x /\ 0 <= y < tiles_y /\
    c = Paste canvas tile (x * fst (size tile), y * snd (size tile)).
Proof.
  unfold paste_calls. rewrite in_flat_map. split.
  - intros (y & Hy & Hc). apply in_map_iff in Hc as (x & <- & Hx).
    exists x, y. rewrite <- !in_range. auto.
  - intros (x & y & Hx & Hy & ->). exists y. rewrite in_range.
    split; [assumption|]. apply in_map_iff. exists x. rewrite in_range. auto.
Qed.


(** X7.  [tile_image] leaves no gap and no overlap: for a tile of positive
    width and height, every pixel of the canvas lies in the rectangle of
    exactly one of the pasted copies. *)
Theorem tile_image_covers_once (tile : image) (tw th tiles_x tiles_y : Z)
    (px py : Z) :
  size tile = (tw, th) -> 0 < tw -> 0 < th ->
  0 <= px < tw * tiles_x -> 0 <= py < th * tiles_y ->
  let canvas := mkimage (tw * tiles_x, th * tiles_y) "RGBA" in
  let pasted_over (at_ : Z * Z) : Prop :=
    In (Paste canvas tile at_) (snd (tile_image tile tiles_x tiles_y [])) /\
    fst at_ <= px < fst at_ + tw /\ snd at_ <= py < snd at_ + th in
  exists at_, pasted_over at_ /\ forall at', pasted_over at' -> at' = at_.
Proof.
  intros Hsize Htw Hth Hpx Hpy canvas pasted_over.
  assert (Hlog : forall at_,
    In (Paste canvas tile at_) (snd (tile_image tile tiles_x tiles_y [])) <->
    exists x y, 0 <= x < tiles_x /\ 0 <= y < tiles_y /\ at_ = (x * tw, y * th)).
  { intros at_. rewrite tile_image_canvas. cbn [snd app]. rewrite Hsize.
    cbn [fst snd]. fold canvas. split.
    - intros [Hnew | Hin]; [discriminate|].
      apply in_paste_calls in Hin as (x & y & Hx & Hy & Heq).
      rewrite Hsize in Heq. cbn [fst snd] in Heq. injection Heq as ->.
      exists x, y. auto.
    - intros (x & y & Hx & Hy & ->). right. apply in_paste_calls.
      exists x, y. rewrite Hsize. auto. }
  pose proof (Z.div_mod px tw ltac:(lia)) as Hdx.
  pose proof (Z.mod_pos_bound px tw Htw) as Hmx.
  pose proof (Z.div_mod py th ltac:(lia)) as Hdy.
  pose proof (Z.mod_pos_bound py th Hth) as Hmy.
  exists (px / tw * tw, py / th * th). split.
  - subst pasted_over. cbv beta. cbn [fst snd]. split; [| lia].
    apply Hlog. exists (px / tw), (py / th).
    split; [| split; [| reflexivity]].
    + split; [apply Z.div_pos; lia | apply Z.div_lt_upper_bound; lia].
    + split; [apply Z.div_pos; lia | apply Z.div_lt_upper_bound; lia].
  - intros at' (Hin & Hx & Hy).
    apply Hlog in Hin as (x & y & _ & _ & ->). cbn [fst snd] in Hx, Hy.
    assert (x = px / tw) by nia. assert (y = py / th) by nia.
    subst x y. reflexivity.
Qed.

Lemma tile_image_covers_once_witness :
  let tile := mkimage (400, 400) "RGBA" in
  let canvas := mkimage (400 * 3, 400 * 3) "RGBA" in
  let pasted_over (at_ : Z * Z) : Prop :=
    In (Paste canvas tile at_) (snd (tile_image tile 3 3 [])) /\
    fst at_ <= 1000 < fst at_ + 400 /\ snd at_ <= 399 < snd at_ + 400 in
  exists at_, pasted_over at_ /\ forall at', pasted_over at' -> at' = at_.
Proof.
  apply (tile_image_covers_once (mkimage (400, 400) "RGBA") 400 400 3 3
           1000 399); solve [reflexivity | lia].
Defined.



(** ** Loading *)


(** ** The whole run *)

Section Runs.

Variable fs : files.
Variables input_path output_path : string.
Variables tiles_x tiles_y : Z.
Variable target : TargetSpec.
Variable anchor : string.
Variable resample : Z.

Let wallpaper (force_square_check : bool) : run unit :=
  make_pattern_wallpaper fs input_path output_path tiles_x tiles_y target
    anchor resample force_square_check.


(** X11.  Whatever the arguments, a run saves at most once; and what it
    saves, it saves to the output path, at the resolution of the target in
    both directions, and with exactly the size of the target. *)
Theorem run_saves_at_most_once (force_square_check : bool) :
  saved (snd (wallpaper force_square_check [])) = [] \/
  exists out : image,
    saved (snd (wallpaper force_square_check []))
      = [(out, output_path, (dpi target, dpi target))] /\
    size out = (width_px target, height_px target).
Proof.
  destruct (wallpaper_outcome fs input_path output_path tiles_x tiles_y target
              anchor resample force_square_check)
    as [Hnone | (eff & left_ & top & _ & _ & Hsaved)].
  - left. exact Hnone.
  - right. cbv zeta in Hsaved. eexists. split; [exact Hsaved|].
    destruct (is_jpeg output_path); cbn; f_equal; lia.
Qed.


(** X13.  With a tile count of zero the run stops at the computation of the
    effective size, on [ZeroDivisionError] (or the [OverflowError] of the
    first division): it has read the tile, and made no call that resizes,
    tiles, crops or saves. *)
Theorem run_zero_count_stops_early (force_square_check : bool) (img : image) :
  decode fs input_path = Some img ->
  force_square_check = false \/ fst (size img) = snd (size img) ->
  tiles_x = 0 \/ tiles_y = 0 ->
  exists e,
    (e = ZeroDivisionError \/ e = OverflowError) /\
    wallpaper force_square_check [] =
      (Raise e, Open input_path :: load_calls img) /\
    existsb is_work (snd (wallpaper force_square_check [])) = false.
Proof.
  intros Hdec Hsq Hzero.
  assert (Hraise : exists e,
            compute_effective_tile_size (width_px target) (height_px target)
              tiles_x tiles_y = Raise e).
  { unfold compute_effective_tile_size. cbn [bind result_monad].
    destruct (PyFloat.truediv (width_px target) tiles_x) as [x | e] eqn:Hx;
      [| eexists; reflexivity].
    destruct Hzero as [Hz | Hz]; rewrite Hz in *.
    - discriminate Hx.
    - eexists. reflexivity. }
  destruct Hraise as [e He]. exists e.
  split; [eapply compute_effective_tile_size_raises; eassumption|].
  unfold wallpaper.
  rewrite (wallpaper_no_size _ _ _ _ _ _ _ _ _ img e) by assumption.
  split; [reflexivity|]. cbn [snd app existsb is_work orb].
  unfold load_calls. destruct (mode img =? "RGBA")%string; reflexivity.
Qed.

(** X14.  A tile that cannot be read is the first failure of a run,
    whatever the other arguments (counts of zero and an unknown anchor
    included): the run raises the library's error, with [DecodeError] for
    kind, after the one call that tried to open the file. *)
Theorem run_unreadable_tile_fails_first (force_square_check : bool) :
  decode fs input_path = None ->
  wallpaper force_square_check [] =
    (Raise (ImageOpenError input_path), [Open input_path]) /\
  fails_with (fst (wallpaper force_square_check [])) DecodeError.
Proof.
  intros Hdec. unfold wallpaper.
  rewrite wallpaper_undecoded by assumption.
  split; [reflexivity|]. eexists. split; reflexivity.
Qed.

Lemma resizes_app (l1 l2 : list call) :
  resizes (l1 ++ l2) = resizes l1 ++ resizes l2.
Proof. unfold resizes. apply flat_map_app. Qed.

Lemma resizes_load_calls (img : image) : resizes (load_calls img) = [].
Proof. unfold load_calls. destruct (mode img =? "RGBA")%string; reflexivity. Qed.

Lemma resizes_paste_calls (canvas tile : image) (tx ty : Z) :
  resizes (paste_calls canvas tile tx ty) = [].
Proof.
  unfold paste_calls.
  induction (range ty) as [| y rows IH]; [reflexivity|].
  cbn [flat_map]. rewrite resizes_app, IH, app_nil_r. clear IH.
  induction (range tx) as [| x cols IHc]; [reflexivity | exact IHc].
Qed.

(** X15.  A run that has its tile and its effective size resizes at most
    once: not at all when the tile has the effective size in both
    directions already, and otherwise the loaded tile, to the square
    [(eff, eff)], with the filter it was given. *)
Theorem run_resizes_only_if_needed (force_square_check : bool) (img : image)
    (eff : Z) :
  decode fs input_path = Some img ->
  force_square_check = false \/ fst (size img) = snd (size img) ->
  compute_effective_tile_size (width_px target) (height_px target)
    tiles_x tiles_y = Ok eff ->
  (size img = (eff, eff) ->
   resizes (snd (wallpaper force_square_check [])) = []) /\
  (size img <> (eff, eff) ->
   resizes (snd (wallpaper force_square_check []))
   = [(mkimage (size img) "RGBA", (eff, eff), resample)]).
Proof.
  intros Hdec Hsq Heff.
  assert (Hall : resizes (snd (wallpaper force_square_check []))
                 = resizes (resize_calls img eff resample)).
  { unfold wallpaper.
    rewrite (wallpaper_stages _ _ _ _ _ _ _ _ _ img eff) by assumption.
    cbv zeta.
    set (tiled := mkimage (eff * tiles_x, eff * tiles_y) "RGBA").
    set (log3 := [] ++ Open input_path :: _).
    assert (Hlog3 : resizes log3 = resizes (resize_calls img eff resample)).
    { subst log3. cbn [app resizes flat_map].
      fold (resizes (load_calls img ++ resize_calls img eff resample
                       ++ New "RGBA" (size tiled) (0, 0, 0, 0)
                       :: paste_calls tiled (mkimage (eff, eff) "RGBA")
                            tiles_x tiles_y)).
      rewrite resizes_app, resizes_load_calls, resizes_app.
      cbn [app]. replace (New "RGBA" (size tiled) (0, 0, 0, 0)
                 :: paste_calls tiled (mkimage (eff, eff) "RGBA") tiles_x tiles_y)
        with ([New "RGBA" (size tiled) (0, 0, 0, 0)]
              ++ paste_calls tiled (mkimage (eff, eff) "RGBA") tiles_x tiles_y)
        by reflexivity.
      rewrite resizes_app, resizes_paste_calls. cbn. rewrite !app_nil_r.
      reflexivity. }
    destruct (Z_lt_ge_dec (eff * tiles_x) (width_px target)) as [Hw | Hw];
      [| destruct (Z_lt_ge_dec (eff * tiles_y) (height_px target)) as [Hh | Hh]].
    1, 2: rewrite (crop_to_target_too_small tiled (eff * tiles_x) (eff * tiles_y))
        by (reflexivity || lia);
      exact Hlog3.
    rewrite (crop_to_target_large_enough tiled (eff * tiles_x) (eff * tiles_y))
      by (reflexivity || lia).
    destruct (crop_offset _ _ _ _ anchor) as [[left_ top] | e]; [| exact Hlog3].
    cbn [snd]. rewrite !resizes_app, Hlog3.
    destruct (is_jpeg output_path); cbn; rewrite !app_nil_r; reflexivity. }
  rewrite Hall. unfold resize_calls, size_eqb. cbn [fst snd]. split.
  - intros ->. cbn [fst snd]. rewrite !Z.eqb_refl. reflexivity.
  - intros Hne.
    destruct (Z.eqb_spec (fst (size img)) eff) as [H1 |]; [| reflexivity].
    destruct (Z.eqb_spec (snd (size img)) eff) as [H2 |]; [| reflexivity].
    exfalso. apply Hne. destruct (size img). cbn in *. congruence.
Qed.


(** X17.  The square check matters for tiles that are not square only: on
    an input that is unreadable or square, a run with the check on is the
    run with the check off. *)
Theorem run_square_tile_ignores_check (log : list call) :
  (forall img, decode fs input_path = Some img ->
               fst (size img) = snd (size img)) ->
  wallpaper true log = wallpaper false log.
Proof.
  intros Hsquare. unfold wallpaper.
  destruct (decode fs input_path) as [img |] eqn:Hdec.
  - specialize (Hsquare img eq_refl).
    destruct (compute_effective_tile_size (width_px target) (height_px target)
                tiles_x tiles_y) as [eff | e] eqn:Heff.
    + rewrite !(wallpaper_stages _ _ _ _ _ _ _ _ _ img eff) by auto.
      reflexivity.
    + rewrite !(wallpaper_no_size _ _ _ _ _ _ _ _ _ img e) by auto.
      reflexivity.
  - rewrite !wallpaper_undecoded by assumption. reflexivity.
Qed.

End Runs.



Lemma run_zero_count_stops_early_witness :
  exists e,
    (e = ZeroDivisionError \/ e = OverflowError) /\
    make_pattern_wallpaper (holding (mkimage (400, 400) "RGBA")) "tile.png"
      "out/wall.png" 0 2 (mkTargetSpec 400 300 DPI) "center" PIL.LANCZOS
      true [] =
      (Raise e, Open "tile.png" :: load_calls (mkimage (400, 400) "RGBA")) /\
    existsb is_work
      (snd (make_pattern_wallpaper (holding (mkimage (400, 400) "RGBA"))
              "tile.png" "out/wall.png" 0 2 (mkTargetSpec 400 300 DPI)
              "center" PIL.LANCZOS true [])) = false.
Proof.
  apply (run_zero_count_stops_early (holding (mkimage (400, 400) "RGBA"))
           "tile.png" "out/wall.png" 0 2 (mkTargetSpec 400 300 DPI) "center"
           PIL.LANCZOS true (mkimage (400, 400) "RGBA")).
  - reflexivity.
  - right. reflexivity.
  - left. reflexivity.
Defined.

Lemma run_unreadable_tile_fails_first_witness :
  let nothing := mkfiles (fun _ => None) (fun _ _ => true) in
  make_pattern_wallpaper nothing "missing.png" "out/wall.png" 0 0
    (mkTargetSpec 400 300 DPI) "middle" PIL.LANCZOS true [] =
    (Raise (ImageOpenError "missing.png"), [Open "missing.png"]) /\
  fails_with
    (fst (make_pattern_wallpaper nothing "missing.png" "out/wall.png" 0 0
            (mkTargetSpec 400 300 DPI) "middle" PIL.LANCZOS true []))
    DecodeError.
Proof.
  apply (run_unreadable_tile_fails_first
           (mkfiles (fun _ => None) (fun _ _ => true)) "missing.png"
           "out/wall.png" 0 0 (mkTargetSpec 400 300 DPI) "middle"
           PIL.LANCZOS true).
  reflexivity.
Defined.

Lemma run_resizes_only_if_needed_witness :
  resizes (snd (make_pattern_wallpaper (holding (mkimage (400, 400) "RGBA"))
                  "tile.png" "out/wall.png" 3 3 (mkTargetSpec 1200 1200 DPI)
                  "center" PIL.LANCZOS true [])) = [] /\
  resizes (snd (make_pattern_wallpaper (holding (mkimage (500, 500) "RGBA"))
                  "tile.png" "out/wall.png" 3 3 (mkTargetSpec 1200 1200 DPI)
                  "center" PIL.LANCZOS true []))
  = [(mkimage (500, 500) "RGBA", (400, 400), PIL.LANCZOS)].
Proof.
  split.
  - apply (run_resizes_only_if_needed (holding (mkimage (400, 400) "RGBA"))
             "tile.png" "out/wall.png" 3 3 (mkTargetSpec 1200 1200 DPI)
             "center" PIL.LANCZOS true (mkimage (400, 400) "RGBA") 400);
      solve [reflexivity | right; reflexivity | vm_compute; reflexivity].
  - apply (run_resizes_only_if_needed (holding (mkimage (500, 500) "RGBA"))
             "tile.png" "out/wall.png" 3 3 (mkTargetSpec 1200 1200 DPI)
             "center" PIL.LANCZOS true (mkimage (500, 500) "RGBA") 400);
      solve [reflexivity | right; reflexivity | vm_compute; reflexivity
             | cbn; intros H; discriminate H].
Defined.


Lemma run_square_tile_ignores_check_witness :
  make_pattern_wallpaper (holding (mkimage (500, 500) "RGBA")) "tile.png"
    "out/wall.png" 3 3 (mkTargetSpec 1200 1200 DPI) "center" PIL.LANCZOS
    true [] =
  make_pattern_wallpaper (holding (mkimage (500, 500) "RGBA")) "tile.png"
    "out/wall.png" 3 3 (mkTargetSpec 1200 1200 DPI) "center" PIL.LANCZOS
    false [].
Proof.
  apply (run_square_tile_ignores_check (holding (mkimage (500, 500) "RGBA"))
           "tile.png" "out/wall.png" 3 3 (mkTargetSpec 1200 1200 DPI)
           "center" PIL.LANCZOS []).
  intros img [= <-]. reflexivity.
Defined.



(** ** More on the parsers *)

Module PyIntFacts.
Import PyStr PyStrFacts.

Local Open Scope string_scope.

(** [py_int] by the first character of the stripped string. *)
Lemma py_int_by_sign (s : string) :
  py_int s =
  match
    match rstrip is_int_space (lstrip is_int_space s) with
    | EmptyString => None
    | String c t' =>
        if Ascii.eqb c "+" then option_map Z.of_uint (digits t')
        else if Ascii.eqb c "-" then
          option_map (fun d => (- Z.of_uint d)%Z) (digits t')
        else option_map Z.of_uint (digits (String c t'))
    end
  with
  | Some z => Ok z
  | None => Raise (ValueError (InvalidLiteral s))
  end.
Proof.
  unfold py_int.
  destruct (rstrip is_int_space (lstrip is_int_space s)) as [| c t'];
    [reflexivity|].
  destruct c as [[|] [|] [|] [|] [|] [|] [|] [|]]; reflexivity.
Qed.

Lemma uint_of_char_digit (c : ascii) (o : option Decimal.uint)
    (d : Decimal.uint) :
  DecimalString.uint_of_char c o = Some d ->
  is_digit c = true /\ exists d', o = Some d'.
Proof.
  destruct o as [d' |]; [| discriminate].
  intros H. split; [| eexists; reflexivity].
  revert H. destruct c as [[|] [|] [|] [|] [|] [|] [|] [|]]; cbn;
    solve [discriminate | reflexivity].
Qed.

Lemma more_digits_chars (n : nat) :
  forall (s : string) (d : Decimal.uint),
    (String.length s <= n)%nat -> more_digits s = Some d ->
    all digitish s = true.
Proof.
  induction n as [| n IH]; intros s d Hlen H.
  - destruct s; [reflexivity | cbn in Hlen; lia].
  - destruct s as [| c s']; [reflexivity|].
    cbn [String.length] in Hlen. cbn [more_digits] in H.
    destruct (Ascii.eqb_spec c "_") as [-> | Hc].
    + destruct s' as [| c' s'']; [discriminate|].
      cbn [String.length] in Hlen.
      apply uint_of_char_digit in H as [Hc' [d' Hd']].
      cbn [all]. unfold digitish at 2. rewrite Hc'.
      cbn. apply (IH s'' d'); [lia | exact Hd'].
    + apply uint_of_char_digit in H as [Hc' [d' Hd']].
      cbn [all]. unfold digitish at 1. rewrite Hc'.
      cbn. apply (IH s' d'); [lia | exact Hd'].
Qed.

Lemma digits_chars (s : string) (d : Decimal.uint) :
  digits s = Some d -> all digitish s = true.
Proof.
  destruct s as [| c s']; [discriminate|]. cbn [digits]. intros H.
  apply uint_of_char_digit in H as [Hc [d' Hd']].
  cbn [all]. unfold digitish at 1. rewrite Hc. cbn.
  apply (more_digits_chars (String.length s') s' d'); [lia | exact Hd'].
Qed.

Lemma lstrip_decompose (space : ascii -> bool) (s : string) :
  exists l, s = l ++ lstrip space s /\ all space l = true.
Proof.
  induction s as [| c s IH].
  - exists "". split; reflexivity.
  - cbn [lstrip]. destruct (space c) eqn:Hc.
    + destruct IH as (l & Hl & Hall). exists (String c l). split.
      * cbn. rewrite <- Hl. reflexivity.
      * cbn. rewrite Hc. exact Hall.
    + exists "". split; reflexivity.
Qed.

Lemma rstrip_decompose (space : ascii -> bool) (s : string) :
  exists r, s = rstrip space s ++ r /\ all space r = true.
Proof.
  induction s as [| c s IH].
  - exists "". split; reflexivity.
  - cbn [rstrip]. destruct IH as (r & Hr & Hall).
    destruct (rstrip space s) as [| d t] eqn:Hrs.
    + destruct (space c) eqn:Hc.
      * exists (String c s). split; [reflexivity|].
        cbn. rewrite Hc. cbn in Hr. rewrite Hr. exact Hall.
      * exists r. split; [| exact Hall]. cbn. cbn in Hr. rewrite <- Hr.
        reflexivity.
    + exists r. split; [| exact Hall]. cbn. cbn in Hr. rewrite <- Hr.
      reflexivity.
Qed.

(** What [int] accepts is made of the characters of integers. *)
Lemma py_int_chars (s : string) (z : Z) :
  py_int s = Ok z -> all is_int_char s = true.
Proof.
  rewrite py_int_by_sign.
  destruct (lstrip_decompose is_int_space s) as (l & Hl & Hlsp).
  destruct (rstrip_decompose is_int_space (lstrip is_int_space s))
    as (r & Hr & Hrsp).
  set (t := rstrip is_int_space (lstrip is_int_space s)) in *.
  intros H.
  assert (Hsp : forall u, all is_int_space u = true ->
                          all is_int_char u = true).
  { intros u. apply all_weaken. intros c Hc. unfold is_int_char.
    rewrite Hc. reflexivity. }
  assert (Hdig : forall u d, digits u = Some d -> all is_int_char u = true).
  { intros u d Hd. apply (all_weaken digitish); [| eapply digits_chars, Hd].
    intros c Hc. unfold digitish in Hc. unfold is_int_char.
    apply orb_prop in Hc as [-> | ->];
      rewrite ?orb_true_r; reflexivity. }
  assert (Ht : all is_int_char t = true).
  { destruct t as [| c t']; [reflexivity|].
    destruct (Ascii.eqb_spec c "+") as [-> | Hplus].
    - destruct (digits t') eqn:Hd; [| discriminate].
      cbn [all]. rewrite (Hdig _ _ Hd). reflexivity.
    - destruct (Ascii.eqb_spec c "-") as [-> | Hminus].
      + destruct (digits t') eqn:Hd; [| discriminate].
        cbn [all]. rewrite (Hdig _ _ Hd). reflexivity.
      + destruct (digits (String c t')) eqn:Hd; [| discriminate].
        apply (Hdig _ _ Hd). }
  rewrite Hl, Hr, !all_app, (Hsp l Hlsp), Ht, (Hsp r Hrsp). reflexivity.
Qed.

Lemma contains_none (p : ascii -> bool) (c : ascii) (s : string) :
  p c = false -> all p s = true -> contains c s = false.
Proof.
  intros Hc. induction s as [| d s IH]; [reflexivity|].
  cbn [all contains]. intros H. apply andb_prop in H as [Hd Hs].
  rewrite (IH Hs), orb_false_r. apply Ascii.eqb_neq. intros ->. congruence.
Qed.

(** A field that [int] accepts holds neither an [x] nor a [*]. *)
Lemma py_int_no_separator (s : string) (z : Z) :
  py_int s = Ok z -> contains "x" s = false /\ contains "*" s = false.
Proof.
  intros H. apply py_int_chars in H.
  split; apply (contains_none is_int_char); auto.
Qed.

Lemma replace_absent (a b : ascii) (s : string) :
  contains a s = false -> replace a b s = s.
Proof.
  induction s as [| c s IH]; [reflexivity|].
  cbn [contains replace]. intros H. apply orb_false_iff in H as [Hc Hs].
  rewrite Hc, (IH Hs). reflexivity.
Qed.

Lemma split_once_join (s : string) :
  contains "x" s = true ->
  s = fst (split_once "x" s) ++ String "x" (snd (split_once "x" s)).
Proof.
  induction s as [| c s IH]; [discriminate|].
  cbn [contains split_once].
  destruct (Ascii.eqb_spec c "x") as [-> | Hc].
  - reflexivity.
  - cbn [orb]. intros H. specialize (IH H).
    destruct (split_once "x" s) as [before after]. cbn [fst snd] in *.
    cbn. rewrite <- IH. reflexivity.
Qed.

Lemma strip_decompose (s : string) :
  exists l r, s = l ++ strip s ++ r /\
              all is_space l = true /\ all is_space r = true.
Proof.
  destruct (lstrip_decompose is_space s) as (l & Hl & Hlsp).
  destruct (rstrip_decompose is_space (lstrip is_space s)) as (r & Hr & Hrsp).
  exists l, r. unfold strip. rewrite <- Hr. auto.
Qed.

(** *** Tokens padded with white space *)

















End PyIntFacts.

Section MoreParsers.
Import PyStr PyStrFacts PyIntFacts.
Local Open Scope string_scope.



Lemma parse_tiles_ok (s : string) (a b : Z) :
  parse_tiles s = Ok (a, b) ->
  has_tiles_separator s = true /\
  py_int (fst (tiles_fields s)) = Ok a /\
  py_int (snd (tiles_fields s)) = Ok b /\ (0 < a)%Z /\ (0 < b)%Z.
Proof.
  intros H.
  destruct (has_tiles_separator s) eqn:Hsep.
  2: { rewrite (parse_tiles_no_separator s Hsep) in H. discriminate. }
  rewrite (parse_tiles_by_fields s Hsep) in H.
  destruct (py_int (fst (tiles_fields s))) as [tx | e]; [| discriminate].
  destruct (py_int (snd (tiles_fields s))) as [ty | e]; [| discriminate].
  destruct (Z.leb_spec tx 0); [discriminate|].
  destruct (Z.leb_spec ty 0); [discriminate|].
  injection H as -> ->. auto.
Qed.

Lemma parse_size_ok (s : string) (w h : Z) :
  parse_size s = Ok (w, h) ->
  has_size_separator s = true /\
  py_int (fst (size_fields s)) = Ok w /\
  py_int (snd (size_fields s)) = Ok h /\ (0 < w)%Z /\ (0 < h)%Z.
Proof.
  intros H.
  destruct (has_size_separator s) eqn:Hsep.
  2: { rewrite (parse_size_no_separator s Hsep) in H. discriminate. }
  rewrite (parse_size_by_fields s Hsep) in H.
  destruct (py_int (fst (size_fields s))) as [tx | e]; [| discriminate].
  destruct (py_int (snd (size_fields s))) as [ty | e]; [| discriminate].
  destruct (Z.leb_spec tx 0); [discriminate|].
  destruct (Z.leb_spec ty 0); [discriminate|].
  injection H as -> ->. auto.
Qed.

(** A token that [parse_size] accepts has no [*]. *)
Lemma parse_size_ok_no_star (s : string) (w h : Z) :
  parse_size s = Ok (w, h) -> contains "*" (lower s) = false.
Proof.
  intros H. apply parse_size_ok in H as (Hsep & Ha & Hb & _).
  unfold size_fields in Ha, Hb.
  pose proof (size_separator s) as Hx. rewrite Hsep in Hx.
  pose proof (split_once_join _ Hx) as Hjoin.
  destruct (py_int_no_separator _ _ Ha) as [_ Hsa].
  destruct (py_int_no_separator _ _ Hb) as [_ Hsb].
  destruct (strip_decompose (lower s)) as (l & r & Hs & Hl & Hr).
  assert (Hstar : forall u, all is_space u = true -> contains "*" u = false).
  { intros u. apply contains_none. reflexivity. }
  rewrite Hs, Hjoin, !contains_app. cbn [contains].
  rewrite Hsa, Hsb, (Hstar l Hl), (Hstar r Hr). reflexivity.
Qed.

(** Hence [parse_tiles] reads it as [parse_size] does. *)
Lemma parse_size_within_parse_tiles_aux (s : string) (w h : Z) :
  parse_size s = Ok (w, h) -> parse_tiles s = Ok (w, h).
Proof.
  intros H.
  pose proof (parse_size_ok_no_star s w h H) as Hstar.
  apply parse_size_ok in H as (Hsep & Ha & Hb & Hw & Hh).
  assert (Hfields : tiles_fields s = size_fields s).
  { unfold tiles_fields, size_fields.
    rewrite (PyIntFacts.replace_absent _ _ _ Hstar). reflexivity. }
  assert (Hsep' : has_tiles_separator s = true).
  { unfold has_tiles_separator. unfold has_size_separator in Hsep.
    rewrite Hsep. reflexivity. }
  rewrite (parse_tiles_by_fields s Hsep'), Hfields, Ha, Hb.
  destruct (Z.leb_spec w 0); [lia|]. destruct (Z.leb_spec h 0); [lia|].
  reflexivity.
Qed.

End MoreParsers.

(** X19.  What the two parsers return is a pair of positive integers; and
    writing the pair back in decimal around an [x] gives a token that the
    same parser reads as the same pair. *)
Theorem parsed_pair_is_positive (s : string) (a b : Z) :
  (parse_tiles s = Ok (a, b) ->
   0 < a /\ 0 < b /\
   parse_tiles (PyStr.str a ++ String "x" (PyStr.str b)) = Ok (a, b)) /\
  (parse_size s = Ok (a, b) ->
   0 < a /\ 0 < b /\
   parse_size (PyStr.str a ++ String "x" (PyStr.str b)) = Ok (a, b)).
Proof.
  split; intros H.
  - apply parse_tiles_ok in H as (_ & _ & _ & Ha & Hb).
    repeat split; try assumption.
    apply parse_tiles_literals; [left; reflexivity | assumption | assumption].
  - apply parse_size_ok in H as (_ & _ & _ & Ha & Hb).
    repeat split; try assumption.
    apply parse_size_literals; [left; reflexivity | assumption | assumption].
Qed.

Lemma parsed_pair_is_positive_witness :
  (0 < 3 /\ 0 < 6 /\ parse_tiles "3x6" = Ok (3, 6)) /\
  (0 < 3840 /\ 0 < 2160 /\ parse_size "3840x2160" = Ok (3840, 2160)).
Proof.
  split.
  - apply (proj1 (parsed_pair_is_positive " 3 * 6 " 3 6)). reflexivity.
  - apply (proj2 (parsed_pair_is_positive "3840X2160" 3840 2160)). reflexivity.
Defined.

(** X20.  [parse_tiles] accepts every token that [parse_size] accepts, and
    reads it as the same pair. *)
Theorem parse_size_within_parse_tiles (s : string) (w h : Z) :
  parse_size s = Ok (w, h) -> parse_tiles s = Ok (w, h).
Proof. exact (parse_size_within_parse_tiles_aux s w h). Qed.

Lemma parse_size_within_parse_tiles_witness :
  parse_tiles " 3840 X 2160 " = Ok (3840, 2160).
Proof.
  apply (parse_size_within_parse_tiles " 3840 X 2160 " 3840 2160).
  reflexivity.
Defined.

(** X21.  A token with a second separator after the first is rejected with
    [InvalidFormat] by both parsers: the token is split at its first
    separator only, and what follows is then not an integer. *)
Theorem second_separator_is_rejected (s : string) :
  (has_tiles_separator s = true ->
   PyStr.contains "x" (snd (tiles_fields s)) = true ->
   fails_with (parse_tiles s) InvalidFormat) /\
  (has_size_separator s = true ->
   PyStr.contains "x" (snd (size_fields s)) = true ->
   fails_with (parse_size s) InvalidFormat).
Proof.
  split; intros Hsep Hx.
  - rewrite (parse_tiles_by_fields s Hsep).
    destruct (PyStr.py_int (snd (tiles_fields s))) as [ty | e] eqn:Hb.
    + destruct (PyIntFacts.py_int_no_separator _ _ Hb) as [Hno _]. congruence.
    + destruct (PyStr.py_int (fst (tiles_fields s)));
        eexists; split; reflexivity.
  - rewrite (parse_size_by_fields s Hsep).
    destruct (PyStr.py_int (snd (size_fields s))) as [ty | e] eqn:Hb.
    + destruct (PyIntFacts.py_int_no_separator _ _ Hb) as [Hno _]. congruence.
    + destruct (PyStr.py_int (fst (size_fields s)));
        eexists; split; reflexivity.
Qed.

Lemma second_separator_is_rejected_witness :
  fails_with (parse_tiles "2x3*4") InvalidFormat /\
  fails_with (parse_size "1920x1080x3") InvalidFormat.
Proof.
  split.
  - apply (proj1 (second_separator_is_rejected "2x3*4")); reflexivity.
  - apply (proj2 (second_separator_is_rejected "1920x1080x3")); reflexivity.
Defined.



Section PaddedTokens.
Import PyStr PyStrFacts PyIntFacts.
Local Open Scope string_scope.

Variables a b : Z.
Variables l m1 m2 r : string.
Hypothesis Hl : all is_space l = true.
Hypothesis Hm1 : all is_int_space m1 = true.
Hypothesis Hm2 : all is_int_space m2 = true.
Hypothesis Hr : all is_space r = true.












End PaddedTokens.



(** X24.  Counts that [parse_tiles] returns never make
    [compute_effective_tile_size] divide by zero: whatever the target, the
    computation with such counts returns, or raises [OverflowError]. *)
Theorem parsed_counts_never_divide_by_zero (s : string)
    (tiles_x tiles_y target_w target_h : Z) :
  parse_tiles s = Ok (tiles_x, tiles_y) ->
  compute_effective_tile_size target_w target_h tiles_x tiles_y
  <> Raise ZeroDivisionError.
Proof.
  intros H. apply parse_tiles_ok in H as (_ & _ & _ & Hx & Hy).
  unfold compute_effective_tile_size, PyFloat.truediv.
  cbn [bind result_monad].
  destruct (Z.eqb_spec tiles_x 0); [lia|].
  destruct (Z.eqb_spec tiles_y 0); [lia|].
  destruct (target_w =? 0);
    [| destruct (PyFloat.too_large _); [discriminate|]];
    cbn;
    (destruct (target_h =? 0);
       [| destruct (PyFloat.too_large _)]); discriminate.
Qed.

Lemma parsed_counts_never_divide_by_zero_witness :
  compute_effective_tile_size 3840 2160 3 6 <> Raise ZeroDivisionError.
Proof.
  apply (parsed_counts_never_divide_by_zero "3x6" 3 6 3840 2160).
  reflexivity.
Defined.
